(** * PyLox: the tree-walking evaluator of [src/interpreter.py]

    A shallow embedding of [Interpreter] (class [Interpreter(NodeVisitor)]) and
    of the parts of the Python runtime it leans on: [collections.ChainMap] for
    the scope chain, [float] arithmetic (IEEE binary64, Rocq's primitive
    floats), [str] of a float, and the exceptions that travel through
    [try/except/finally].  Python objects that are mutated in place (the
    [dict]s of the chain) live in a store and are referred to by address. *)

From Stdlib Require Import ZArith String Ascii List Floats.
From stdpp Require Import base option list gmap strings.

Set Warnings "-inexact-float,-register-all".

(** ** [str(x)] for a [float]

    CPython prints the shortest decimal that reads back as the same double
    ([float_repr_style = 'short']), in exponent form when the decimal point
    falls outside the digits by more than [repr]'s thresholds. *)
Module PyFloat.
Local Open Scope Z_scope.

(** Decimal digits of a non-negative integer, most significant first. *)
Fixpoint digits_fuel (fuel : nat) (n : Z) (acc : string) : string :=
  match fuel with
  | O => acc
  | S fuel' =>
      let c := ascii_of_nat (48 + Z.to_nat (n mod 10)) in
      if n <? 10 then String c acc
      else digits_fuel fuel' (n / 10) (String c acc)
  end.

Definition digits (n : Z) : string :=
  digits_fuel (S (Z.to_nat (Z.log2 n))) n EmptyString.

(** [x = num / den] with [den > 0]; [pow10_le k] is [10^k <= x]. *)
Definition pow10_le (num den k : Z) : bool :=
  if 0 <=? k then 10 ^ k * den <=? num else den <=? num * 10 ^ (- k).

Fixpoint log10_search (fuel : nat) (num den k : Z) : Z :=
  match fuel with
  | O => k
  | S fuel' =>
      if pow10_le num den (k + 1) then log10_search fuel' num den (k + 1)
      else k
  end.

(** [floor (log10 (num / den))], from a lower estimate read off the bit lengths. *)
Definition floor_log10 (num den : Z) : Z :=
  let l2 := Z.log2 num - Z.log2 den - 1 in
  let k0 := (l2 * 30102) / 100000 - 1 in
  log10_search 8 num den k0.

(** A candidate [d * 10^q] for [num / den], kept when it lies within the
    rounding interval [[num - lo, num + hi] / den] of the float (closed when
    the mantissa is even), with its distance to the float. *)
Definition candidate (num den lo hi : Z) (closed : bool) (d q : Z) : option (Z * Z * Z) :=
  let scaled := if 0 <=? q then d * 10 ^ q * den else d * den in
  let ref := if 0 <=? q then num else num * 10 ^ (- q) in
  let unit := if 0 <=? q then 1 else 10 ^ (- q) in
  let diff := scaled - ref in
  let inside :=
    if 0 <=? diff
    then (if closed then diff <=? hi * unit else diff <? hi * unit)
    else (if closed then - diff <=? lo * unit else - diff <? lo * unit) in
  if inside then Some (d, q, Z.abs diff) else None.

Definition closest (a b : option (Z * Z * Z)) : option (Z * Z) :=
  match a, b with
  | Some (d1, q1, e1), Some (d2, q2, e2) =>
      if e1 <? e2 then Some (d1, q1)
      else if e2 <? e1 then Some (d2, q2)
      else if Z.even d1 then Some (d1, q1) else Some (d2, q2)
  | Some (d, q, _), None | None, Some (d, q, _) => Some (d, q)
  | None, None => None
  end.

(** The shortest decimal with [n, n+1, ...] significant digits that reads
    back as the float. *)
Fixpoint shortest_from (fuel : nat) (num den lo hi : Z) (closed : bool) (k n : Z) : Z * Z :=
  let q := k - n + 1 in
  let d := if 0 <=? q then num / (10 ^ q * den) else (num * 10 ^ (- q)) / den in
  match closest (candidate num den lo hi closed d q)
                (candidate num den lo hi closed (d + 1) q) with
  | Some r => r
  | None =>
      match fuel with
      | O => (d, q)
      | S fuel' => shortest_from fuel' num den lo hi closed k (n + 1)
      end
  end.

Fixpoint strip_zeros (fuel : nat) (d q : Z) : Z * Z :=
  match fuel with
  | O => (d, q)
  | S fuel' => if (d mod 10 =? 0) && (0 <? d) then strip_zeros fuel' (d / 10) (q + 1) else (d, q)
  end.

(** Shortest digit string and decimal point position of [m * 2^e]
    ([m] a binary64 mantissa): the value is [0.DIGITS * 10^decpt]. *)
Definition shortest (m : positive) (e : Z) : string * Z :=
  let m := Z.pos m in
  let boundary := (m =? 2 ^ 52) && (-1074 <? e) in
  let sh := e - 2 in
  let num := if 0 <=? sh then 4 * m * 2 ^ sh else 4 * m in
  let den := if 0 <=? sh then 1 else 2 ^ (- sh) in
  let hi := if 0 <=? sh then 2 * 2 ^ sh else 2 in
  let lo := if boundary then hi / 2 else hi in
  let k := floor_log10 num den in
  let '(d, q) := shortest_from 17 num den lo hi (Z.even m) k 1 in
  let '(d, q) := strip_zeros 20 d q in
  let ds := digits d in
  (ds, Z.of_nat (String.length ds) + q).

Fixpoint zeros (n : nat) : string :=
  match n with O => EmptyString | S n' => String "0" (zeros n') end.

(** CPython's [format_float_short] for [repr]: exponent form when
    [decpt <= -4] or [decpt > 16], otherwise positional with [.0] added to
    an integral value. *)
Definition format (ds : string) (decpt : Z) : string :=
  let n := Z.of_nat (String.length ds) in
  if (decpt <=? -4) || (16 <? decpt) then
    let ex := decpt - 1 in
    let mant :=
      match ds with
      | String c EmptyString => ds
      | String c rest => String c (String "." rest)
      | EmptyString => ds
      end in
    let es := digits (Z.abs ex) in
    let es := if Z.abs ex <? 10 then String "0" es else es in
    let sign := if ex <? 0 then "-"%string else "+"%string in
    (mant ++ "e" ++ sign ++ es)%string
  else if decpt <=? 0 then
    ("0." ++ zeros (Z.to_nat (- decpt)) ++ ds)%string
  else if n <=? decpt then
    (ds ++ zeros (Z.to_nat (decpt - n)) ++ ".0")%string
  else
    (substring 0 (Z.to_nat decpt) ds ++ "." ++
     substring (Z.to_nat decpt) (Z.to_nat (n - decpt)) ds)%string.

(** [str(x)] for a Python float. *)
Definition float_str (x : float) : string :=
  match Prim2SF x with
  | S754_zero s => if s then "-0.0" else "0.0"
  | S754_infinity s => if s then "-inf" else "inf"
  | S754_nan => "nan"
  | S754_finite s m e =>
      let '(ds, decpt) := shortest m e in
      let sign := if s then "-"%string else ""%string in
      (sign ++ format ds decpt)%string
  end.

End PyFloat.

(** ** Runtime values

    The Python objects a Lox expression can evaluate to.  [None] is Lox's
    [nil]; numbers are always [float]; [NotImplemented] is the singleton that
    [a.__eq__(b)] hands back for operands it does not know how to compare. *)
Inductive value : Type :=
| VNone
| VBool (b : bool)
| VFloat (x : float)
| VStr (s : string)
| VNotImplemented.

(** ** Syntax tree ([expr.py], consumed as data)

    [op] and [name] are the [lexeme] of the node's token; [Variable_] is the
    class [Variable]. *)
Inductive expr : Type :=
| Literal (value : value)
| Grouping (value : expr)
| Unary (op : string) (right : expr)
| Binary (left : expr) (op : string) (right : expr)
| Logical (left : expr) (op : string) (right : expr)
| Variable_ (name : string)
| Assign (name : string) (value : expr).

Inductive stmt : Type :=
| ExprStmt (value : expr)
| Print (value : expr)
| VarDeclaration (name : string) (initializer : option expr)
| Block (statements : list stmt)
| IfStmt (test : expr) (consequence : stmt) (alternative : option stmt)
| WhileStmt (test : expr) (body : stmt).

(** ** Exceptions

    [RuntimeFailure] is what [ErrorHandler.error] signals (see [ErrorHandler]
    below); [NotImplementedError] is raised by [visit_Unary] and is a subclass
    of Python's [RuntimeError]; [ZeroDivisionError] comes from [float / float];
    [IndexError] from [maps[0]] on an empty list; [HostTypeError] stands for
    the host operator applied to operands the preceding check has already
    rejected. *)
Inductive exn : Type :=
| RuntimeFailure (node : expr) (msg : string)
| NotImplementedError (msg : string)
| ZeroDivisionError (msg : string)
| IndexError
| HostTypeError.

(** [isinstance(e, RuntimeError)]. *)
Definition is_RuntimeError (e : exn) : bool :=
  match e with
  | RuntimeFailure _ _ | NotImplementedError _ => true
  | ZeroDivisionError _ | IndexError | HostTypeError => false
  end.

(** ** Interpreter state

    [heap] holds the [dict] objects by address, [env] is [self.env]: the
    [maps] list of the current [ChainMap], innermost scope first, each entry
    the address of a [dict].  [stdout] collects the lines written by [print],
    [reported] the errors handed to [ErrorHandler.runtime_error]. *)
Record state : Type := mkState {
  heap : list (gmap string value);
  env : list nat;
  stdout : list string;
  reported : list exn;
}.

Definition set_heap (h : list (gmap string value)) (st : state) : state :=
  mkState h (env st) (stdout st) (reported st).
Definition set_env (c : list nat) (st : state) : state :=
  mkState (heap st) c (stdout st) (reported st).
Definition add_stdout (line : string) (st : state) : state :=
  mkState (heap st) (env st) (stdout st ++ [line]) (reported st).
Definition add_reported (e : exn) (st : state) : state :=
  mkState (heap st) (env st) (stdout st) (reported st ++ [e]).

(** The [dict] stored at an address (an address that was never allocated
    reads as an empty [dict]; well-formed states have none). *)
Definition dict_at (h : list (gmap string value)) (l : nat) : gmap string value :=
  default ∅ (h !! l).

(** ** Computations: state passing with exceptions

    [Timeout] marks a run cut short by the step budget of [exec]; it is not an
    exception and no handler sees it. *)
Inductive outcome (A : Type) : Type :=
| Ret (a : A)
| Raise (e : exn)
| Timeout.
Arguments Ret {A} a.
Arguments Raise {A} e.
Arguments Timeout {A}.

Definition M (A : Type) : Type := state -> outcome A * state.

Definition ret {A} (a : A) : M A := fun st => (Ret a, st).
Definition raise {A} (e : exn) : M A := fun st => (Raise e, st).
Definition bind {A B} (m : M A) (k : A -> M B) : M B :=
  fun st =>
    match m st with
    | (Ret a, st') => k a st'
    | (Raise e, st') => (Raise e, st')
    | (Timeout, st') => (Timeout, st')
    end.

Notation "x <- m ;; k" := (bind m (fun x => k))
  (at level 100, m at next level, k at level 200, right associativity).
Notation "m ;;; k" := (bind m (fun _ => k))
  (at level 100, k at level 200, right associativity).

(** [try: body except ...: handler]. *)
Definition try_except {A} (body : M A) (handler : exn -> M A) : M A :=
  fun st =>
    match body st with
    | (Raise e, st') => handler e st'
    | r => r
    end.

(** [try: body finally: cleanup] ([cleanup] here never raises). *)
Definition try_finally {A} (body : M A) (cleanup : state -> state) : M A :=
  fun st =>
    match body st with
    | (Ret a, st') => (Ret a, cleanup st')
    | (Raise e, st') => (Raise e, cleanup st')
    | (Timeout, st') => (Timeout, st')
    end.

(** [for x in xs: f(x)]. *)
Fixpoint for_each {A} (f : A -> M unit) (xs : list A) : M unit :=
  match xs with
  | [] => ret tt
  | x :: xs' => f x ;;; for_each f xs'
  end.

(** [print(line)]. *)
Definition print (line : string) : M unit :=
  fun st => (Ret tt, add_stdout line st).

(** ** [collections.ChainMap]

    A [ChainMap] is its [maps] list; the [dict]s themselves are shared by
    address, so a child sees every later change to its parents. *)
Module ChainMap.

(** [key in self]: [any(key in m for m in self.maps)]. *)
Fixpoint contains (h : list (gmap string value)) (maps : list nat) (key : string) : bool :=
  match maps with
  | [] => false
  | l :: rest =>
      match dict_at h l !! key with
      | Some _ => true
      | None => contains h rest key
      end
  end.

(** [self[key]]: the first mapping that has the key; [None] is [KeyError]. *)
Fixpoint getitem (h : list (gmap string value)) (maps : list nat) (key : string) : option value :=
  match maps with
  | [] => None
  | l :: rest =>
      match dict_at h l !! key with
      | Some v => Some v
      | None => getitem h rest key
      end
  end.

(** [self.get(key)]: [self[key] if key in self else None]. *)
Definition get (h : list (gmap string value)) (maps : list nat) (key : string) : value :=
  if contains h maps key then default VNone (getitem h maps key) else VNone.

(** [self[key] = value]: [self.maps[0][key] = value]. *)
Definition setitem (maps : list nat) (key : string) (v : value) : M unit :=
  fun st =>
    match maps with
    | [] => (Raise IndexError, st)
    | l :: _ => (Ret tt, set_heap (<[l := <[key := v]> (dict_at (heap st) l)]> (heap st)) st)
    end.

(** [self.new_child()]: [ChainMap({}, *self.maps)]. *)
Definition new_child (maps : list nat) : M (list nat) :=
  fun st => (Ret (length (heap st) :: maps), set_heap (heap st ++ [∅]) st).

End ChainMap.

(** ** [ErrorHandler] ([error_handler.py]) *)
Module ErrorHandler.

(** Modelled from the spec: [ErrorHandler.error(node, message)], which is not
    part of [interpreter.py].  The failed operand check "signals" a
    [TypeError] runtime failure carrying "the offending node/operator and a
    human-readable message", and the failure "aborts evaluation of the current
    top-level statement sequence": the call does not return, it raises a
    [RuntimeError] that [Interpreter.interpret] catches. *)
Definition error {A} (node : expr) (message : string) : M A :=
  raise (RuntimeFailure node message).

(** Modelled from the spec: [ErrorHandler.runtime_error(error)], which is not
    part of [interpreter.py]: the external error sink, which takes the report
    and returns. *)
Definition runtime_error (error : exn) : M unit :=
  fun st => (Ret tt, add_reported error st).

End ErrorHandler.

(** ** Host operators on values *)

(** [isinstance(v, float)] ([bool] is an [int], not a [float]). *)
Definition is_float (v : value) : bool :=
  match v with VFloat _ => true | _ => false end.

(** [isinstance(v, str)]. *)
Definition is_str (v : value) : bool :=
  match v with VStr _ => true | _ => false end.

(** [a.__eq__(b)], called as a method: no reflected fallback.  [float.__eq__]
    knows [float] and [int] (so [bool]); [int.__eq__] (the one [bool] has)
    knows only [int]; [str.__eq__] only [str]; [object.__eq__] only identity. *)
Definition py_eq (a b : value) : value :=
  match a, b with
  | VFloat x, VFloat y => VBool (x =? y)%float
  | VFloat x, VBool c => VBool (x =? (if c then 1 else 0))%float
  | VBool c, VBool d => VBool (Bool.eqb c d)
  | VStr s, VStr t => VBool (s =? t)%string
  | VNone, VNone => VBool true
  | VNotImplemented, VNotImplemented => VBool true
  | _, _ => VNotImplemented
  end.

(** [bool(v)], the host's truth test behind [not v].  [NotImplemented] counts
    as true (CPython 3.10 to 3.13, with a [DeprecationWarning]). *)
Definition py_bool (v : value) : bool :=
  match v with
  | VNone => false
  | VBool b => b
  | VFloat x => negb (x =? 0)%float
  | VStr s => negb (s =? "")%string
  | VNotImplemented => true
  end.

(** [str(v)]. *)
Definition py_str (v : value) : string :=
  match v with
  | VNone => "None"
  | VBool b => if b then "True" else "False"
  | VFloat x => PyFloat.float_str x
  | VStr s => s
  | VNotImplemented => "NotImplemented"
  end.

(** [text.endswith(suffix)]. *)
Definition endswith (text suffix : string) : bool :=
  let n := String.length text in
  let k := String.length suffix in
  (k <=? n)%nat && (substring (n - k) k text =? suffix)%string.

(** Arithmetic on two operands that passed [check_numeric_operands]. *)
Definition on_floats (f : float -> float -> M value) (left right : value) : M value :=
  match left, right with
  | VFloat x, VFloat y => f x y
  | _, _ => raise HostTypeError
  end.

(** [left / right] on floats: a zero divisor raises. *)
Definition py_truediv (x y : float) : M value :=
  if (y =? 0)%float then raise (ZeroDivisionError "float division by zero")
  else ret (VFloat (x / y)%float).

(** [left + right]: concatenation of two [str], sum of two [float]. *)
Definition py_add (left right : value) : M value :=
  match left, right with
  | VStr s, VStr t => ret (VStr (s ++ t)%string)
  | VFloat x, VFloat y => ret (VFloat (x + y)%float)
  | _, _ => raise HostTypeError
  end.

(** ** [class Interpreter] *)
Module Interpreter.

(** [Interpreter()]: [self.env = ChainMap()], nothing printed or reported. *)
Definition init : state :=
  mkState [∅] [0] [] [].

(** Both checks return [True] or call [ErrorHandler.error]. *)
Definition check_numeric_operands (node : expr) (left right : value) : M bool :=
  if is_float left && is_float right then ret true
  else ErrorHandler.error node "operands must be numbers".

Definition check_numeric_operand (node : expr) (v : value) : M bool :=
  if is_float v then ret true
  else ErrorHandler.error node "operand must be a number".

Definition is_truthy (v : value) : bool :=
  match v with
  | VNone => false
  | VBool b => b
  | _ => true
  end.

Definition is_equal (a b : value) : value :=
  match a, b with
  | VNone, VNone => VBool true
  | VNone, _ => VBool false
  | _, _ => py_eq a b
  end.

Definition stringify (v : value) : string :=
  match v with
  | VNone => "nil"
  | VFloat _ =>
      let text := py_str v in
      if endswith text ".0" then substring 0 (String.length text - 2) text
      else text
  | _ => py_str v
  end.

Section Expressions.

(** [self.visit], the recursive call. *)
Variable visit : expr -> M value.

Definition visit_Literal (v : value) : M value := ret v.

Definition visit_Logical (left : expr) (op : string) (right : expr) : M value :=
  l <- visit left ;;
  if (op =? "or")%string then
    (if is_truthy l then ret l else visit right)
  else if (op =? "and")%string then
    (if is_truthy l then visit right else ret l)
  else ret VNone.

Definition visit_Grouping (inner : expr) : M value := visit inner.

(** The message of the [NotImplementedError] shows the operator by its
    lexeme (the source formats the token object). *)
Definition visit_Unary (op : string) (right : expr) : M value :=
  r <- visit right ;;
  if (op =? "-")%string then
    check_numeric_operand (Unary op right) r ;;;
    match r with
    | VFloat x => ret (VFloat (- x)%float)
    | _ => raise HostTypeError
    end
  else if (op =? "!")%string then
    ret (VBool (negb (is_truthy r)))
  else raise (NotImplementedError ("Bad operator " ++ op)).

Definition visit_Variable (name : string) : M value :=
  fun st => (Ret (ChainMap.get (heap st) (env st) name), st).

(** [match operator: case '-': ... case '==': ...]; an operator with no
    [case] falls out of the [match] and the method returns [None], as does
    the [except] branch of ['/']. *)
Definition visit_Binary (left : expr) (op : string) (right : expr) : M value :=
  let node := Binary left op right in
  l <- visit left ;;
  r <- visit right ;;
  if (op =? "-")%string then
    check_numeric_operands node l r ;;;
    on_floats (fun x y => ret (VFloat (x - y)%float)) l r
  else if (op =? "/")%string then
    try_except
      (check_numeric_operands node l r ;;; on_floats py_truediv l r)
      (fun error =>
         match error with
         | ZeroDivisionError msg => print ("ZeroDivisionError: " ++ msg) ;;; ret VNone
         | _ => raise error
         end)
  else if (op =? "*")%string then
    check_numeric_operands node l r ;;;
    on_floats (fun x y => ret (VFloat (x * y)%float)) l r
  else if (op =? "+")%string then
    (if is_str l && is_str r then ret true else check_numeric_operands node l r) ;;;
    py_add l r
  else if (op =? ">")%string then
    check_numeric_operands node l r ;;;
    on_floats (fun x y => ret (VBool (y <? x)%float)) l r
  else if (op =? ">=")%string then
    check_numeric_operands node l r ;;;
    on_floats (fun x y => ret (VBool (y <=? x)%float)) l r
  else if (op =? "<")%string then
    check_numeric_operands node l r ;;;
    on_floats (fun x y => ret (VBool (x <? y)%float)) l r
  else if (op =? "<=")%string then
    check_numeric_operands node l r ;;;
    on_floats (fun x y => ret (VBool (x <=? y)%float)) l r
  else if (op =? "!=")%string then
    ret (VBool (negb (py_bool (is_equal l r))))
  else if (op =? "==")%string then
    ret (is_equal l r)
  else ret VNone.

Definition visit_Assign (name : string) (rhs : expr) : M value :=
  v <- visit rhs ;;
  (fun st => ChainMap.setitem (env st) name v st) ;;;
  ret v.

End Expressions.

(** Modelled from the spec: [NodeVisitor.visit] of [expr.py], which is not
    part of [interpreter.py]: "runtime type-based method dispatch", the node
    of class [C] goes to [visit_C]. *)
Fixpoint visit_expr (node : expr) : M value :=
  match node with
  | Literal v => visit_Literal v
  | Grouping inner => visit_Grouping visit_expr inner
  | Unary op operand => visit_Unary visit_expr op operand
  | Binary lhs op rhs => visit_Binary visit_expr lhs op rhs
  | Logical lhs op rhs => visit_Logical visit_expr lhs op rhs
  | Variable_ name => visit_Variable name
  | Assign name rhs => visit_Assign visit_expr name rhs
  end.

Section Statements.

(** [self.visit] on a statement, the recursive call. *)
Variable visit : stmt -> M unit.

Definition execute_Block (node : list stmt) (env' : list nat) : M unit :=
  fun st =>
    let previous := env st in
    try_finally
      (fun st1 => for_each visit node (set_env env' st1))
      (set_env previous)
      st.

(** [visit_WhileStmt], one turn of [while is_truthy(visit(test)): visit(body)];
    [again] is the loop from its next turn on. *)
Definition visit_WhileStmt_step (test : expr) (body : stmt) (again : M unit) : M unit :=
  t <- visit_expr test ;;
  if is_truthy t then visit body ;;; again else ret tt.

Definition visit_ExprStmt (e : expr) : M unit :=
  visit_expr e ;;; ret tt.

Definition visit_IfStmt (test : expr) (consequence : stmt) (alternative : option stmt) : M unit :=
  t <- visit_expr test ;;
  if is_truthy t then visit consequence
  else match alternative with
       | Some alt => visit alt
       | None => ret tt
       end.

Definition visit_Print (e : expr) : M unit :=
  v <- visit_expr e ;;
  print (stringify v).

Definition visit_VarDeclaration (name : string) (initializer : option expr) : M unit :=
  v <- match initializer with
       | Some e => visit_expr e
       | None => ret VNone
       end ;;
  (fun st => ChainMap.setitem (env st) name v st).

Definition visit_Block (statements : list stmt) : M unit :=
  child <- (fun st => ChainMap.new_child (env st) st) ;;
  execute_Block statements child.

End Statements.

(** Modelled from the spec: the statement half of [NodeVisitor.visit], the
    same dispatch on the node's class.  [fuel] bounds the nesting of calls
    and the number of loop iterations; a run that needs more ends in
    [Timeout]. *)
Fixpoint visit_stmt (fuel : nat) (node : stmt) : M unit :=
  match fuel with
  | O => fun st => (Timeout, st)
  | S fuel' =>
      match node with
      | ExprStmt e => visit_ExprStmt e
      | Print e => visit_Print e
      | VarDeclaration name initializer => visit_VarDeclaration name initializer
      | Block statements => visit_Block (visit_stmt fuel') statements
      | IfStmt test consequence alternative =>
          visit_IfStmt (visit_stmt fuel') test consequence alternative
      | WhileStmt test body =>
          visit_WhileStmt_step (visit_stmt fuel') test body
            (visit_stmt fuel' (WhileStmt test body))
      end
  end.

(** [interpret(node)]: run the statements, hand a [RuntimeError] to the sink;
    any other exception leaves [interpret] uncaught. *)
Definition interpret (fuel : nat) (node : list stmt) : M unit :=
  try_except
    (for_each (visit_stmt fuel) node)
    (fun error =>
       if is_RuntimeError error then ErrorHandler.runtime_error error
       else raise error).

End Interpreter.

(** ** Vocabulary of the statements proved below *)

(** The line [print('ZeroDivisionError:', error)] writes. *)
Definition zero_division_line : string :=
  "ZeroDivisionError: float division by zero".

(** What a visit leaves alone: the cursor [self.env] and the error sink; and
    no [dict] goes away. *)
Definition cursor_kept (st st' : state) : Prop :=
  env st' = env st ∧ reported st' = reported st ∧
  length (heap st) ≤ length (heap st').

(** A computation that always finishes (returns or raises) with the cursor
    where it was. *)
Definition keeps_cursor {A} (m : M A) : Prop :=
  ∀ st, (m st).1 ≠ Timeout ∧ cursor_kept st (m st).2.

(** A computation that has the cursor where it was whenever it finishes. *)
Definition restores_cursor {A} (m : M A) : Prop :=
  ∀ st, (m st).1 ≠ Timeout → cursor_kept st (m st).2.

(** Whatever exception leaves the computation, started with a scope chain,
    is a [RuntimeError]. *)
Definition raises_only_RuntimeError {A} (m : M A) : Prop :=
  ∀ st e st', env st ≠ [] → m st = (Raise e, st') → is_RuntimeError e = true.

(** [m'] finishes as [m] does wherever [m] finishes. *)
Definition extends {A} (m m' : M A) : Prop :=
  ∀ st r st', m st = (r, st') → r ≠ Timeout → m' st = (r, st').

(** What a visit may change: besides keeping the cursor, it leaves every
    [dict] that exists alone except the one of the innermost scope, and it
    only adds lines to standard output. *)
Definition innermost_only (st st' : state) : Prop :=
  cursor_kept st st' ∧
  (∀ l, l < length (heap st) → head (env st) ≠ Some l →
        heap st' !! l = heap st !! l) ∧
  (∃ out, stdout st' = stdout st ++ out).

(** A computation that is within these bounds whenever it finishes. *)
Definition confined {A} (m : M A) : Prop :=
  ∀ st, (m st).1 ≠ Timeout → innermost_only st (m st).2.

(** What the name reads as: the value [visit_Variable] returns. *)
Definition reads (st : state) (name : string) : value :=
  ChainMap.get (heap st) (env st) name.

(** The state a block's statements start in: a new empty [dict] in front of
    the chain. *)
Definition enter_block (st : state) : state :=
  set_env (length (heap st) :: env st) (set_heap (heap st ++ [∅]) st).

(** The operators [visit_Binary] checks for numeric operands. *)
Definition numeric_operators : list string :=
  ["-"; "/"; "*"; "+"; ">"; ">="; "<"; "<="].

(** All the operators [visit_Binary] has a [case] for. *)
Definition binary_operators : list string :=
  numeric_operators ++ ["!="; "=="].

(** A float that is not a number: the only value that differs from itself. *)
Definition is_nan (x : float) : bool :=
  match Prim2SF x with S754_nan => true | _ => false end.

(** The value is a number that is not a number. *)
Definition value_is_nan (v : value) : bool :=
  match v with VFloat x => is_nan x | _ => false end.

(** A computation that always finishes, leaves every [dict] in place (none
    added) and prints nothing but division diagnostics. *)
Definition quiet {A} (m : M A) : Prop :=
  ∀ st, (m st).1 ≠ Timeout ∧
        length (heap (m st).2) = length (heap st) ∧
        ∃ n, stdout (m st).2 = stdout st ++ replicate n zero_division_line.

(** No scope of the chain binds [name]. *)
Definition unbound (st : state) (name : string) : Prop :=
  ∀ l, l ∈ env st → dict_at (heap st) l !! name = None.

(** The scopes of the chain are allocated [dict]s, each listed once, and
    there is at least the global one. *)
Definition well_formed (st : state) : Prop :=
  env st ≠ [] ∧ NoDup (env st) ∧ Forall (λ l, l < length (heap st)) (env st).

(** The equality rule in the spec's words: [nil] equals only [nil]; within a
    variant, numeric equality for numbers and exact match for strings and
    booleans; false across variants. *)
Definition spec_equal (a b : value) : bool :=
  match a, b with
  | VNone, VNone => true
  | VBool c, VBool d => Bool.eqb c d
  | VFloat x, VFloat y => (x =? y)%float
  | VStr s, VStr t => (s =? t)%string
  | _, _ => false
  end.

(** Both values are [nil], both booleans, both numbers or both strings. *)
Definition same_variant (a b : value) : bool :=
  match a, b with
  | VNone, VNone | VBool _, VBool _ | VFloat _, VFloat _ | VStr _, VStr _ => true
  | _, _ => false
  end.

(** ** Basic facts about the combinators *)

Lemma cursor_kept_refl st : cursor_kept st st.
Proof. by repeat split. Qed.

Lemma cursor_kept_trans st1 st2 st3 :
  cursor_kept st1 st2 → cursor_kept st2 st3 → cursor_kept st1 st3.
Proof. intros (? & ? & ?) (? & ? & ?). repeat split; [congruence.. | lia]. Qed.

Lemma keeps_cursor_ret {A} (a : A) : keeps_cursor (ret a).
Proof. intros st; split; [done | apply cursor_kept_refl]. Qed.

Lemma keeps_cursor_raise {A} e : keeps_cursor (@raise A e).
Proof. intros st; split; [done | apply cursor_kept_refl]. Qed.

Lemma keeps_cursor_bind {A B} (m : M A) (k : A → M B) :
  keeps_cursor m → (∀ a, keeps_cursor (k a)) → keeps_cursor (bind m k).
Proof.
  intros Hm Hk st. unfold bind.
  destruct (Hm st) as [Hnt Hc]. destruct (m st) as [[a|e|] st1]; simpl in *.
  - destruct (Hk a st1) as [? ?]. split; [done | by eapply cursor_kept_trans].
  - done.
  - done.
Qed.

Lemma keeps_cursor_try_except {A} (m : M A) (h : exn → M A) :
  keeps_cursor m → (∀ e, keeps_cursor (h e)) → keeps_cursor (try_except m h).
Proof.
  intros Hm Hh st. unfold try_except.
  destruct (Hm st) as [Hnt Hc]. destruct (m st) as [[a|e|] st1]; simpl in *; try done.
  destruct (Hh e st1) as [? ?]. split; [done | by eapply cursor_kept_trans].
Qed.

Lemma keeps_cursor_print line : keeps_cursor (print line).
Proof. intros st; by repeat split. Qed.

Lemma keeps_cursor_setitem name v :
  keeps_cursor (λ st, ChainMap.setitem (env st) name v st).
Proof.
  intros st. unfold ChainMap.setitem.
  destruct (env st); repeat split; simpl; try done. by rewrite length_insert.
Qed.

Lemma keeps_cursor_check_operand node v :
  keeps_cursor (Interpreter.check_numeric_operand node v).
Proof.
  unfold Interpreter.check_numeric_operand.
  destruct (is_float v); [apply keeps_cursor_ret | apply keeps_cursor_raise].
Qed.

Lemma keeps_cursor_check_operands node l r :
  keeps_cursor (Interpreter.check_numeric_operands node l r).
Proof.
  unfold Interpreter.check_numeric_operands.
  destruct (is_float l && is_float r); [apply keeps_cursor_ret | apply keeps_cursor_raise].
Qed.

Lemma keeps_cursor_on_floats f l r :
  (∀ x y, keeps_cursor (f x y)) → keeps_cursor (on_floats f l r).
Proof.
  intros Hf. destruct l, r; simpl; first [apply Hf | apply keeps_cursor_raise].
Qed.

Lemma keeps_cursor_truediv x y : keeps_cursor (py_truediv x y).
Proof.
  unfold py_truediv. destruct (y =? 0)%float;
    [apply keeps_cursor_raise | apply keeps_cursor_ret].
Qed.

Lemma keeps_cursor_add l r : keeps_cursor (py_add l r).
Proof.
  destruct l, r; simpl;
    first [apply keeps_cursor_raise | apply keeps_cursor_ret].
Qed.

Create HintDb cursor.

#[local] Hint Resolve keeps_cursor_ret keeps_cursor_raise keeps_cursor_print
  keeps_cursor_setitem keeps_cursor_check_operand keeps_cursor_check_operands
  keeps_cursor_truediv keeps_cursor_add : cursor.

Ltac cursor_step :=
  first
    [ apply keeps_cursor_bind; [| intros ?]
    | apply keeps_cursor_try_except; [| intros ?]
    | apply keeps_cursor_on_floats; intros ? ?
    | solve [auto with cursor] ].

(** Every expression visit finishes with the cursor where it was: the
    induction behind the frame properties of blocks and of [interpret]. *)
Lemma visit_expr_keeps_cursor (node : expr) :
  keeps_cursor (Interpreter.visit_expr node).
Proof.
  induction node as [v | inner IH | op right IH | left IHl op right IHr
                    | left IHl op right IHr | name | name rhs IH]; simpl.
  - apply keeps_cursor_ret.
  - exact IH.
  - unfold Interpreter.visit_Unary. cursor_step; [exact IH |].
    repeat case_match; repeat cursor_step.
  - unfold Interpreter.visit_Binary. cursor_step; [exact IHl |].
    cursor_step; [exact IHr |].
    repeat first [cursor_step | case_match].
  - unfold Interpreter.visit_Logical. cursor_step; [exact IHl |].
    repeat case_match; auto with cursor.
  - intros st; split; [done | apply cursor_kept_refl].
  - unfold Interpreter.visit_Assign. cursor_step; [exact IH |].
    repeat cursor_step.
Qed.

Lemma keeps_restores {A} (m : M A) : keeps_cursor m → restores_cursor m.
Proof. intros H st _. apply H. Qed.

Lemma restores_cursor_ret {A} (a : A) : restores_cursor (ret a).
Proof. apply keeps_restores, keeps_cursor_ret. Qed.

Lemma restores_cursor_bind {A B} (m : M A) (k : A → M B) :
  restores_cursor m → (∀ a, restores_cursor (k a)) → restores_cursor (bind m k).
Proof.
  intros Hm Hk st. unfold bind.
  specialize (Hm st). destruct (m st) as [[a|e|] st1]; simpl in *.
  - intros Hnt. eapply cursor_kept_trans; [by apply Hm | by apply Hk].
  - intros _. by apply Hm.
  - done.
Qed.

Lemma restores_cursor_for_each {A} (f : A → M unit) (xs : list A) :
  (∀ x, restores_cursor (f x)) → restores_cursor (for_each f xs).
Proof.
  intros Hf. induction xs as [| x xs IH]; simpl.
  - apply restores_cursor_ret.
  - apply restores_cursor_bind; [apply Hf | intros _; exact IH].
Qed.

Lemma restores_cursor_execute_Block visit node env' :
  (∀ s, restores_cursor (visit s)) →
  restores_cursor (Interpreter.execute_Block visit node env').
Proof.
  intros Hv st. unfold Interpreter.execute_Block, try_finally.
  pose proof (restores_cursor_for_each visit node Hv (set_env env' st)) as Hb.
  destruct (for_each visit node (set_env env' st)) as [[[]|e|] st1]; simpl in *;
    try done; intros _; destruct Hb as (_ & Hr & Hh); try done; by repeat split.
Qed.

(** Every statement visit that finishes has the cursor where it was. *)
Lemma visit_stmt_restores_cursor (fuel : nat) (node : stmt) :
  restores_cursor (Interpreter.visit_stmt fuel node).
Proof.
  revert node. induction fuel as [| fuel IH]; intros node; [by intros st |].
  destruct node as [e | e | name initializer | statements
                   | test consequence alternative | test body]; simpl.
  - apply restores_cursor_bind; [apply keeps_restores, visit_expr_keeps_cursor |].
    intros _. apply restores_cursor_ret.
  - apply restores_cursor_bind; [apply keeps_restores, visit_expr_keeps_cursor |].
    intros v. apply keeps_restores, keeps_cursor_print.
  - apply restores_cursor_bind.
    + destruct initializer;
        [apply keeps_restores, visit_expr_keeps_cursor | apply restores_cursor_ret].
    + intros v. apply keeps_restores, keeps_cursor_setitem.
  - apply restores_cursor_bind.
    + intros st _. repeat split; simpl; try done. rewrite length_app. lia.
    + intros child. by apply restores_cursor_execute_Block.
  - apply restores_cursor_bind; [apply keeps_restores, visit_expr_keeps_cursor |].
    intros t. destruct (Interpreter.is_truthy t); [apply IH |].
    destruct alternative; [apply IH | apply restores_cursor_ret].
  - apply restores_cursor_bind; [apply keeps_restores, visit_expr_keeps_cursor |].
    intros t. destruct (Interpreter.is_truthy t); [| apply restores_cursor_ret].
    apply restores_cursor_bind; [apply IH | intros _; apply IH].
Qed.

Lemma for_each_app {A} (f : A → M unit) (xs ys : list A) (st : state) :
  for_each f (xs ++ ys) st = (for_each f xs ;;; for_each f ys) st.
Proof.
  revert st. induction xs as [| x xs IH]; intros st; simpl; [done |].
  unfold bind. destruct (f x st) as [[[]|e|] st1]; [| done | done].
  by rewrite IH.
Qed.

(** ** Which exceptions leave a visit *)

Lemma only_RuntimeError_ret {A} (a : A) : raises_only_RuntimeError (ret a).
Proof. by intros st e st' _ [=]. Qed.

Lemma only_RuntimeError_bind {A B} (m : M A) (k : A → M B) :
  restores_cursor m →
  raises_only_RuntimeError m →
  (∀ a, raises_only_RuntimeError (k a)) →
  raises_only_RuntimeError (bind m k).
Proof.
  intros Hc Hm Hk st e st' Hne. unfold bind.
  specialize (Hc st). specialize (Hm st).
  destruct (m st) as [[a|e1|] st1]; simpl in *.
  - destruct Hc as (Henv & _); [done |]. apply Hk. by rewrite Henv.
  - intros [= <- <-]. by eapply Hm.
  - done.
Qed.

(** An operand check followed by the host operator: operands that are not
    floats stop at the check, with the runtime failure of [ErrorHandler]. *)
Lemma only_RuntimeError_checked node f l r :
  (∀ x y, raises_only_RuntimeError (f x y)) →
  raises_only_RuntimeError
    (Interpreter.check_numeric_operands node l r ;;; on_floats f l r).
Proof.
  intros Hf st e st' Hne.
  destruct l, r; simpl; unfold bind; simpl; try (by intros [= <- <-]).
  by apply Hf.
Qed.

Ltac only_RuntimeError_by_cases :=
  let H := fresh in
  intros ? ? ? _ H;
  unfold bind, ret, raise, print, try_except, py_truediv,
    Interpreter.check_numeric_operands, Interpreter.check_numeric_operand,
    ErrorHandler.error in H;
  simpl in H; repeat case_match; simplify_eq/=; done.

(** From a state with a scope chain, an expression raises nothing but
    [RuntimeError]s: the [ZeroDivisionError] of the host is caught where it
    arises and the host operators only see operands that passed their check. *)
Lemma visit_expr_only_RuntimeError (node : expr) :
  raises_only_RuntimeError (Interpreter.visit_expr node).
Proof.
  induction node as [v | inner IH | op right IH | left IHl op right IHr
                    | left IHl op right IHr | name | name rhs IH]; simpl.
  - apply only_RuntimeError_ret.
  - exact IH.
  - unfold Interpreter.visit_Unary.
    apply only_RuntimeError_bind;
      [apply keeps_restores, visit_expr_keeps_cursor | exact IH |].
    intros r. destruct r; only_RuntimeError_by_cases.
  - unfold Interpreter.visit_Binary.
    apply only_RuntimeError_bind;
      [apply keeps_restores, visit_expr_keeps_cursor | exact IHl |].
    intros l. apply only_RuntimeError_bind;
      [apply keeps_restores, visit_expr_keeps_cursor | exact IHr |].
    intros r.
    repeat (case_match; [try (apply only_RuntimeError_checked; intros x y;
                                apply only_RuntimeError_ret) |]);
      try apply only_RuntimeError_ret.
    all: destruct l, r; only_RuntimeError_by_cases.
  - unfold Interpreter.visit_Logical.
    apply only_RuntimeError_bind;
      [apply keeps_restores, visit_expr_keeps_cursor | exact IHl |].
    intros l. repeat case_match; first [exact IHr | apply only_RuntimeError_ret].
  - by intros st e st' _ [=].
  - unfold Interpreter.visit_Assign.
    apply only_RuntimeError_bind;
      [apply keeps_restores, visit_expr_keeps_cursor | exact IH |].
    intros v. apply only_RuntimeError_bind;
      [apply keeps_restores, keeps_cursor_setitem | | intros _; apply only_RuntimeError_ret].
    intros st e st' Hne. unfold ChainMap.setitem. by destruct (env st).
Qed.

Lemma only_RuntimeError_for_each {A} (f : A → M unit) (xs : list A) :
  (∀ x, restores_cursor (f x)) →
  (∀ x, raises_only_RuntimeError (f x)) →
  raises_only_RuntimeError (for_each f xs).
Proof.
  intros Hc Hf. induction xs as [| x xs IH]; simpl.
  - apply only_RuntimeError_ret.
  - apply only_RuntimeError_bind; [apply Hc | apply Hf | intros _; exact IH].
Qed.

(** The same for statements, at any step budget. *)
Lemma visit_stmt_only_RuntimeError (fuel : nat) (node : stmt) :
  raises_only_RuntimeError (Interpreter.visit_stmt fuel node).
Proof.
  revert node. induction fuel as [| fuel IH]; intros node;
    [by intros st e st' _ [=] |].
  destruct node as [e | e | name initializer | statements
                   | test consequence alternative | test body]; simpl.
  - apply only_RuntimeError_bind;
      [apply keeps_restores, visit_expr_keeps_cursor
      | apply visit_expr_only_RuntimeError
      | intros _; apply only_RuntimeError_ret].
  - apply only_RuntimeError_bind;
      [apply keeps_restores, visit_expr_keeps_cursor
      | apply visit_expr_only_RuntimeError |].
    by intros v st ex st' _ [=].
  - apply only_RuntimeError_bind.
    + destruct initializer;
        [apply keeps_restores, visit_expr_keeps_cursor | apply restores_cursor_ret].
    + destruct initializer;
        [apply visit_expr_only_RuntimeError | apply only_RuntimeError_ret].
    + intros v st e st' Hne. unfold ChainMap.setitem. by destruct (env st).
  - intros st e st' Hne.
    unfold Interpreter.visit_Block, bind, ChainMap.new_child,
      Interpreter.execute_Block, try_finally. simpl.
    pose proof (only_RuntimeError_for_each (Interpreter.visit_stmt fuel) statements
                  (visit_stmt_restores_cursor fuel) IH
                  (set_env (length (heap st) :: env st)
                     (set_heap (heap st ++ [∅]) st)) e) as Hbody.
    destruct (for_each _ statements _) as [[[]|e1|] st1]; intros [= <- <-].
    by eapply Hbody.
  - apply only_RuntimeError_bind;
      [apply keeps_restores, visit_expr_keeps_cursor
      | apply visit_expr_only_RuntimeError |].
    intros t. destruct (Interpreter.is_truthy t); [apply IH |].
    destruct alternative; [apply IH | apply only_RuntimeError_ret].
  - apply only_RuntimeError_bind;
      [apply keeps_restores, visit_expr_keeps_cursor
      | apply visit_expr_only_RuntimeError |].
    intros t. destruct (Interpreter.is_truthy t); [| apply only_RuntimeError_ret].
    apply only_RuntimeError_bind;
      [apply visit_stmt_restores_cursor | apply IH | intros _; apply IH].
Qed.

(** ** Well-formed states *)

Lemma well_formed_init : well_formed Interpreter.init.
Proof.
  split; [done |]. split; [apply NoDup_singleton |].
  apply Forall_singleton. simpl. lia.
Qed.

Lemma well_formed_kept st st' :
  well_formed st → cursor_kept st st' → well_formed st'.
Proof.
  intros (Hne & Hnd & Hall) (Henv & _ & Hlen). rewrite <- Henv in Hne, Hnd, Hall.
  split; [done |]. split; [done |].
  eapply Forall_impl; [exact Hall |]. simpl. intros l Hl. lia.
Qed.


(** A statement that finishes leaves a well-formed state well formed. *)
Lemma visit_stmt_well_formed fuel node st :
  well_formed st →
  (Interpreter.visit_stmt fuel node st).1 ≠ Timeout →
  well_formed (Interpreter.visit_stmt fuel node st).2.
Proof.
  intros Hwf Hnt. eapply well_formed_kept; [exact Hwf |].
  by apply visit_stmt_restores_cursor.
Qed.

Lemma visit_expr_well_formed node st :
  well_formed st → well_formed (Interpreter.visit_expr node st).2.
Proof.
  intros Hwf. eapply well_formed_kept; [exact Hwf |].
  apply visit_expr_keeps_cursor.
Qed.

(** ** The step budget

    A run that finishes within a budget finishes in the same way within any
    larger one: [Timeout] is the only thing the budget decides. *)

Lemma extends_refl {A} (m : M A) : extends m m.
Proof. by intros st r st' H _. Qed.

Lemma extends_bind {A B} (m m' : M A) (k k' : A → M B) :
  extends m m' → (∀ a, extends (k a) (k' a)) → extends (bind m k) (bind m' k').
Proof.
  intros Hm Hk st r st'. unfold bind. specialize (Hm st).
  destruct (m st) as [[a|e|] st1].
  - rewrite (Hm _ _ eq_refl) by done. apply Hk.
  - rewrite (Hm _ _ eq_refl) by done. done.
  - by intros [= <- <-].
Qed.

Lemma extends_try_except {A} (m m' : M A) (h : exn → M A) :
  extends m m' → extends (try_except m h) (try_except m' h).
Proof.
  intros Hm st r st'. unfold try_except. specialize (Hm st).
  destruct (m st) as [[a|e|] st1].
  - rewrite (Hm _ _ eq_refl) by done. done.
  - rewrite (Hm _ _ eq_refl) by done. done.
  - by intros [= <- <-].
Qed.

Lemma extends_for_each {A} (f f' : A → M unit) (xs : list A) :
  (∀ x, extends (f x) (f' x)) → extends (for_each f xs) (for_each f' xs).
Proof.
  intros Hf. induction xs as [| x xs IH]; simpl; [apply extends_refl |].
  apply extends_bind; [apply Hf | intros _; exact IH].
Qed.

Lemma extends_execute_Block visit visit' node env' :
  (∀ s, extends (visit s) (visit' s)) →
  extends (Interpreter.execute_Block visit node env')
          (Interpreter.execute_Block visit' node env').
Proof.
  intros Hv st r st'. unfold Interpreter.execute_Block, try_finally.
  pose proof (extends_for_each visit visit' node Hv (set_env env' st)) as Hb.
  destruct (for_each visit node (set_env env' st)) as [[a|e|] st1].
  - rewrite (Hb _ _ eq_refl) by done. done.
  - rewrite (Hb _ _ eq_refl) by done. done.
  - by intros [= <- <-].
Qed.

Lemma visit_stmt_more_fuel (fuel fuel' : nat) (node : stmt) :
  fuel ≤ fuel' →
  extends (Interpreter.visit_stmt fuel node) (Interpreter.visit_stmt fuel' node).
Proof.
  revert fuel' node. induction fuel as [| fuel IH]; intros fuel' node Hle;
    [by intros st r st' [= <- <-] |].
  destruct fuel' as [| fuel']; [lia |].
  assert (∀ s, extends (Interpreter.visit_stmt fuel s)
                       (Interpreter.visit_stmt fuel' s)) as Hsub
    by (intros s; apply IH; lia).
  destruct node as [e | e | name initializer | statements
                   | test consequence alternative | test body]; simpl;
    try apply extends_refl.
  - apply extends_bind; [apply extends_refl |].
    intros child. by apply extends_execute_Block.
  - apply extends_bind; [apply extends_refl |].
    intros t. destruct (Interpreter.is_truthy t); [apply Hsub |].
    destruct alternative; [apply Hsub | apply extends_refl].
  - apply extends_bind; [apply extends_refl |].
    intros t. destruct (Interpreter.is_truthy t); [| apply extends_refl].
    apply extends_bind; [apply Hsub | intros _; apply Hsub].
Qed.

Lemma interpret_more_fuel (fuel fuel' : nat) (node : list stmt) :
  fuel ≤ fuel' →
  extends (Interpreter.interpret fuel node) (Interpreter.interpret fuel' node).
Proof.
  intros Hle. apply extends_try_except, extends_for_each.
  intros s. by apply visit_stmt_more_fuel.
Qed.

(** ** The cursor: expressions, blocks, [interpret] *)

(** C10: evaluating an expression node of any kind ends (it returns or
    raises) with [self.env] the very chain it was before, whatever bindings
    it changed; a statement, [Block] included, has put the cursor back by the
    time it returns or raises. *)
Theorem cursor_is_a_frame :
  (∀ node st,
     (Interpreter.visit_expr node st).1 ≠ Timeout ∧
     env (Interpreter.visit_expr node st).2 = env st) ∧
  (∀ fuel node st,
     (Interpreter.visit_stmt fuel node st).1 ≠ Timeout →
     env (Interpreter.visit_stmt fuel node st).2 = env st).
Proof.
  split.
  - intros node st. destruct (visit_expr_keeps_cursor node st) as (? & ? & _). done.
  - intros fuel node st Hnt.
    by destruct (visit_stmt_restores_cursor fuel node st Hnt) as (? & _).
Qed.

Lemma cursor_is_a_frame_witness :
  env (Interpreter.visit_expr
         (Assign "x" (Binary (Literal (VFloat 1)) "/" (Literal (VFloat 0))))
         Interpreter.init).2 = [0] ∧
  env (Interpreter.visit_stmt 3
         (Block [VarDeclaration "x" None;
                 ExprStmt (Unary "-" (Literal (VStr "s")))])
         Interpreter.init).2 = [0].
Proof.
  destruct cursor_is_a_frame as [He Hs]. split.
  - apply (He _ Interpreter.init).
  - apply (Hs 3%nat _ Interpreter.init). vm_compute. discriminate.
Defined.

(** C7: a [Block] that finishes, normally or with an exception, ran its
    statements in order against a fresh child of the current chain (a new
    empty [dict] in front of the current [maps]) and left [self.env] as it
    found it. *)
Theorem block_restores_scope fuel statements st r st' :
  Interpreter.visit_stmt (S fuel) (Block statements) st = (r, st') →
  r ≠ Timeout →
  let fresh := length (heap st) in
  let entered := set_env (fresh :: env st) (set_heap (heap st ++ [∅]) st) in
  heap st !! fresh = None ∧
  dict_at (heap entered) fresh = ∅ ∧
  ∃ st1,
    for_each (Interpreter.visit_stmt fuel) statements entered = (r, st1) ∧
    env st1 = fresh :: env st ∧
    st' = set_env (env st) st1 ∧
    env st' = env st.
Proof.
  intros Hrun Hnt fresh entered.
  split; [apply lookup_ge_None_2; lia |].
  split.
  { unfold dict_at, entered, fresh. simpl.
    rewrite lookup_app_r by lia. by rewrite Nat.sub_diag. }
  simpl in Hrun.
  unfold Interpreter.visit_Block, bind, ChainMap.new_child,
    Interpreter.execute_Block, try_finally in Hrun.
  simpl in Hrun. fold fresh in Hrun. fold entered in Hrun.
  pose proof (restores_cursor_for_each (Interpreter.visit_stmt fuel) statements
                (visit_stmt_restores_cursor fuel) entered) as Hbody.
  destruct (for_each (Interpreter.visit_stmt fuel) statements entered)
    as [[[]|e|] st1] eqn:Hfor; simplify_eq/=.
  - destruct Hbody as (Henv & _); [done |]. by exists st1.
  - destruct Hbody as (Henv & _); [done |]. by exists st1.
Qed.

Lemma block_restores_scope_witness :
  (∃ st', Interpreter.visit_stmt 2 (Block [VarDeclaration "x" None]) Interpreter.init
          = (Ret (), st') ∧ env st' = [0]) ∧
  (∃ e st', Interpreter.visit_stmt 2
              (Block [VarDeclaration "x" None;
                      ExprStmt (Unary "-" (Literal (VStr "s")))])
              Interpreter.init
            = (Raise e, st') ∧ env st' = [0]).
Proof.
  split.
  - destruct (Interpreter.visit_stmt 2 (Block [VarDeclaration "x" None])
                Interpreter.init) as [r st'] eqn:Hrun.
    assert (r = Ret ()) as -> by (vm_compute in Hrun; congruence).
    exists st'. split; [done |].
    by destruct (block_restores_scope _ _ _ _ _ Hrun) as (_ & _ & st1 & _ & _ & _ & ?).
  - destruct (Interpreter.visit_stmt 2
                (Block [VarDeclaration "x" None;
                        ExprStmt (Unary "-" (Literal (VStr "s")))])
                Interpreter.init) as [r st'] eqn:Hrun.
    assert (r = Raise (RuntimeFailure (Unary "-" (Literal (VStr "s")))
                         "operand must be a number")) as ->
      by (vm_compute in Hrun; congruence).
    eexists _, st'. split; [done |].
    by destruct (block_restores_scope _ _ _ _ _ Hrun) as (_ & _ & st1 & _ & _ & _ & ?).
Defined.

(** C8: when the statements before [s] run to completion and [s] raises,
    the exception is a runtime failure (a [RuntimeError]) and [interpret]
    stops there: the final state is the one [s] left plus one report,
    whatever statements follow, and the sink has received that error once
    and nothing else. *)
Theorem interpret_stops_at_failure fuel pre s post st st1 e st2 :
  env st ≠ [] →
  for_each (Interpreter.visit_stmt fuel) pre st = (Ret (), st1) →
  Interpreter.visit_stmt fuel s st1 = (Raise e, st2) →
  is_RuntimeError e = true ∧
  Interpreter.interpret fuel (pre ++ s :: post) st = (Ret (), add_reported e st2) ∧
  reported (add_reported e st2) = reported st ++ [e] ∧
  Interpreter.interpret fuel (pre ++ s :: post) st
    = Interpreter.interpret fuel (pre ++ [s]) st.
Proof.
  intros Hne Hpre Hs.
  pose proof (restores_cursor_for_each (Interpreter.visit_stmt fuel) pre
                (visit_stmt_restores_cursor fuel) st) as H1.
  pose proof (visit_stmt_restores_cursor fuel s st1) as H2.
  rewrite Hpre in H1. rewrite Hs in H2. simpl in *.
  destruct H1 as (Henv1 & H1 & _); [done |]. destruct H2 as (_ & H2 & _); [done |].
  assert (is_RuntimeError e = true) as Hrt.
  { eapply (visit_stmt_only_RuntimeError fuel s st1); [congruence | exact Hs]. }
  assert (∀ rest, Interpreter.interpret fuel (pre ++ s :: rest) st
                  = (Ret (), add_reported e st2)) as Hany.
  { intros rest. unfold Interpreter.interpret, try_except.
    rewrite for_each_app. unfold bind at 1. rewrite Hpre. simpl.
    unfold bind. rewrite Hs, Hrt. done. }
  split; [exact Hrt |]. split; [apply Hany |]. split; [| by rewrite !Hany].
  simpl. congruence.
Qed.

Lemma interpret_stops_at_failure_witness :
  Interpreter.interpret 2
    ([Print (Literal (VStr "one"))]
       ++ ExprStmt (Binary (Literal (VFloat 1)) "+" (Literal (VStr "x")))
       :: [Print (Literal (VStr "two"))])
    Interpreter.init
  = (Ret (),
     mkState [∅] [0] ["one"]
       [RuntimeFailure (Binary (Literal (VFloat 1)) "+" (Literal (VStr "x")))
          "operands must be numbers"]) ∧
  Interpreter.interpret 2
    ([] ++ ExprStmt (Unary "~" (Literal (VFloat 1)))
       :: [Print (Literal (VStr "two"))])
    Interpreter.init
  = (Ret (), mkState [∅] [0] [] [NotImplementedError "Bad operator ~"]).
Proof.
  split.
  - refine (proj1 (proj2 (interpret_stops_at_failure 2 _ _ _ Interpreter.init
                            (mkState [∅] [0] ["one"] []) _
                            (mkState [∅] [0] ["one"] []) _ _ _)));
      [done | vm_compute; reflexivity..].
  - refine (proj1 (proj2 (interpret_stops_at_failure 2 [] _ _ Interpreter.init
                            Interpreter.init _ Interpreter.init _ _ _)));
      [done | vm_compute; reflexivity..].
Defined.

(** ** Logical operators *)

(** C6: once the left operand has evaluated to [l], [or] with a truthy [l]
    and [and] with a falsy [l] return [l] in the state the left operand left
    (the right operand is not visited, none of its effects happen); in the
    two other cases the node evaluates exactly as its right operand does from
    there. *)
Theorem logical_short_circuit left right st l st1 :
  Interpreter.visit_expr left st = (Ret l, st1) →
  (Interpreter.is_truthy l = true →
     Interpreter.visit_expr (Logical left "or" right) st = (Ret l, st1) ∧
     Interpreter.visit_expr (Logical left "and" right) st
       = Interpreter.visit_expr right st1) ∧
  (Interpreter.is_truthy l = false →
     Interpreter.visit_expr (Logical left "and" right) st = (Ret l, st1) ∧
     Interpreter.visit_expr (Logical left "or" right) st
       = Interpreter.visit_expr right st1).
Proof.
  intros Hl. simpl. unfold Interpreter.visit_Logical, bind. rewrite Hl. simpl.
  split; intros ->; done.
Qed.

Lemma logical_short_circuit_witness :
  Interpreter.visit_expr
    (Logical (Literal (VBool true)) "or" (Assign "y" (Literal (VFloat 1))))
    Interpreter.init = (Ret (VBool true), Interpreter.init) ∧
  Interpreter.visit_expr
    (Logical (Literal (VBool false)) "and" (Assign "y" (Literal (VFloat 1))))
    Interpreter.init = (Ret (VBool false), Interpreter.init).
Proof.
  split.
  - apply (logical_short_circuit (Literal (VBool true))); reflexivity.
  - apply (logical_short_circuit (Literal (VBool false))); reflexivity.
Defined.

(** ** The scope chain *)

Lemma contains_getitem h maps key :
  ChainMap.contains h maps key = true ↔ is_Some (ChainMap.getitem h maps key).
Proof.
  induction maps as [| l rest IH]; simpl.
  - split; [done | by intros [? ?]].
  - destruct (dict_at h l !! key); [by split; eauto | exact IH].
Qed.

Lemma get_getitem h maps key :
  ChainMap.get h maps key = default VNone (ChainMap.getitem h maps key).
Proof.
  unfold ChainMap.get.
  destruct (ChainMap.contains h maps key) eqn:Hc; [done |].
  destruct (ChainMap.getitem h maps key) eqn:Hg; [| done].
  assert (ChainMap.contains h maps key = true) by (apply contains_getitem; eauto).
  congruence.
Qed.

Lemma getitem_unbound h maps key :
  (∀ l, l ∈ maps → dict_at h l !! key = None) → ChainMap.getitem h maps key = None.
Proof.
  induction maps as [| l rest IH]; intros Hun; simpl; [done |].
  rewrite Hun by set_solver. apply IH. intros l' Hl'. apply Hun. set_solver.
Qed.

Lemma getitem_innermost h pre l post key v :
  (∀ l', l' ∈ pre → dict_at h l' !! key = None) →
  dict_at h l !! key = Some v →
  ChainMap.getitem h (pre ++ l :: post) key = Some v.
Proof.
  intros Hpre Hl. induction pre as [| p pre IH]; simpl.
  - by rewrite Hl.
  - rewrite Hpre by set_solver. apply IH. intros l' Hl'. apply Hpre. set_solver.
Qed.

Lemma dict_at_insert_eq (h : list (gmap string value)) l d :
  l < length h → dict_at (<[l := d]> h) l = d.
Proof. intros Hl. unfold dict_at. by rewrite list_lookup_insert_eq. Qed.

Lemma dict_at_insert_ne (h : list (gmap string value)) l l' d :
  l ≠ l' → dict_at (<[l := d]> h) l' = dict_at h l'.
Proof. intros Hne. unfold dict_at. by rewrite list_lookup_insert_ne. Qed.

(** What [visit_Assign] does once its right-hand side has a value: the
    innermost [dict] gets the binding, every other [dict] is as it was. *)
Lemma visit_Assign_spec name rhs st v st1 l rest :
  Interpreter.visit_expr rhs st = (Ret v, st1) →
  env st1 = l :: rest →
  Interpreter.visit_expr (Assign name rhs) st
  = (Ret v, set_heap (<[l := <[name := v]> (dict_at (heap st1) l)]> (heap st1)) st1).
Proof.
  intros Hrhs Henv. simpl.
  unfold Interpreter.visit_Assign, bind, ChainMap.setitem. rewrite Hrhs.
  by rewrite Henv.
Qed.

(** C3: reading a variable never fails.  When no scope of the chain binds
    the name the read returns [nil]; when some scope does, it returns the
    binding of the innermost scope that has one.  The state is untouched. *)
Theorem variable_read name st :
  (unbound st name →
     Interpreter.visit_expr (Variable_ name) st = (Ret VNone, st)) ∧
  (∀ pre l post v,
     env st = pre ++ l :: post →
     (∀ l', l' ∈ pre → dict_at (heap st) l' !! name = None) →
     dict_at (heap st) l !! name = Some v →
     Interpreter.visit_expr (Variable_ name) st = (Ret v, st)).
Proof.
  split.
  - intros Hun. simpl. unfold Interpreter.visit_Variable.
    by rewrite get_getitem, getitem_unbound.
  - intros pre l post v Henv Hpre Hl. simpl. unfold Interpreter.visit_Variable.
    rewrite get_getitem, Henv. by erewrite getitem_innermost.
Qed.

Lemma unbound_init name : unbound Interpreter.init name.
Proof.
  intros l Hl. simpl in Hl. apply list_elem_of_singleton in Hl as ->. done.
Qed.

Lemma variable_read_witness :
  Interpreter.visit_expr (Variable_ "x")
    (mkState [{["x" := VStr "outer"]}; {["y" := VNone]}; {["x" := VStr "inner"]}]
       [2; 1; 0] [] [])
  = (Ret (VStr "inner"),
     mkState [{["x" := VStr "outer"]}; {["y" := VNone]}; {["x" := VStr "inner"]}]
       [2; 1; 0] [] []) ∧
  Interpreter.visit_expr (Variable_ "x")
    (mkState [{["x" := VStr "outer"]}; {["y" := VNone]}] [1; 0] [] [])
  = (Ret (VStr "outer"),
     mkState [{["x" := VStr "outer"]}; {["y" := VNone]}] [1; 0] [] []) ∧
  Interpreter.visit_expr (Variable_ "x") Interpreter.init
  = (Ret VNone, Interpreter.init).
Proof.
  split; [| split].
  - apply (proj2 (variable_read "x" _) [] 2 [1; 0]); [done | set_solver | done].
  - apply (proj2 (variable_read "x" _) [1] 0 []); [done | | done].
    intros l' Hl'. apply list_elem_of_singleton in Hl' as ->. done.
  - apply (proj1 (variable_read "x" _)). apply unbound_init.
Defined.

(** C3, as the claim has it, fails: with no binding of [x] anywhere in the
    chain, reading [x] returns [nil] and raises nothing. *)
Lemma variable_read_undefined_is_nil :
  unbound Interpreter.init "x" ∧
  Interpreter.visit_expr (Variable_ "x") Interpreter.init
  = (Ret VNone, Interpreter.init) ∧
  ¬ ∃ e st', Interpreter.visit_expr (Variable_ "x") Interpreter.init = (Raise e, st').
Proof.
  split; [apply unbound_init |]. split; [reflexivity |].
  intros (e & st' & H). vm_compute in H. discriminate.
Qed.

(** ** Assignment *)

(** C1: where the claim asks for an [UndefinedVariable] failure the code has
    none.  With no scope binding [name], [Assign] returns the value of its
    right-hand side, and the innermost scope (the global one, at top level)
    binds [name] afterwards: a later read finds the value. *)
Theorem assign_undeclared_creates_binding name rhs st v st1 :
  Interpreter.visit_expr rhs st = (Ret v, st1) →
  well_formed st1 →
  unbound st1 name →
  ∃ st2,
    Interpreter.visit_expr (Assign name rhs) st = (Ret v, st2) ∧
    ¬ unbound st2 name ∧
    Interpreter.visit_expr (Variable_ name) st2 = (Ret v, st2).
Proof.
  intros Hrhs (Hne & Hnd & Hall) _.
  destruct (env st1) as [| l rest] eqn:Henv; [done |].
  apply Forall_cons in Hall as [Hl _].
  eexists. split; [by eapply visit_Assign_spec |].
  assert (dict_at (<[l := <[name := v]> (dict_at (heap st1) l)]> (heap st1)) l
            !! name = Some v) as Hnew.
  { rewrite dict_at_insert_eq by done. apply lookup_insert_eq. }
  split.
  - intros Hun. specialize (Hun l). simpl in Hun. rewrite Henv in Hun.
    rewrite Hnew in Hun. by discriminate Hun; set_solver.
  - simpl. unfold Interpreter.visit_Variable. simpl.
    by rewrite get_getitem, Henv; simpl; rewrite Hnew.
Qed.

Lemma assign_undeclared_creates_binding_witness :
  ∃ st2,
    Interpreter.visit_expr (Assign "x" (Literal (VFloat 1))) Interpreter.init
    = (Ret (VFloat 1), st2) ∧
    ¬ unbound st2 "x" ∧
    Interpreter.visit_expr (Variable_ "x") st2 = (Ret (VFloat 1), st2).
Proof.
  apply (assign_undeclared_creates_binding "x" (Literal (VFloat 1))
           Interpreter.init (VFloat 1) Interpreter.init).
  - reflexivity.
  - split; [done |]. split; [apply NoDup_singleton |].
    apply Forall_singleton. simpl. lia.
  - apply unbound_init.
Defined.

(** The whole run of [x = 1;] on a new interpreter: no error reaches the
    sink and the global scope has gained [x]. *)
Example assign_undeclared_run :
  Interpreter.interpret 1 [ExprStmt (Assign "x" (Literal (VFloat 1)))] Interpreter.init
  = (Ret (), mkState [{["x" := VFloat 1]}] [0] [] []).
Proof. vm_compute. reflexivity. Qed.

(** C2: [Assign] writes the innermost scope, whether or not that scope has
    the name: the binding lands in the first [dict] of the chain and the
    [dict]s of all enclosing scopes are as they were.  A shadow is mutated
    alone, as the claim says; a name bound only further out is not
    overwritten there, against the claim. *)
Theorem assign_writes_innermost_only name rhs st v st1 l rest :
  Interpreter.visit_expr rhs st = (Ret v, st1) →
  well_formed st1 →
  env st1 = l :: rest →
  ∃ st2,
    Interpreter.visit_expr (Assign name rhs) st = (Ret v, st2) ∧
    env st2 = l :: rest ∧
    dict_at (heap st2) l = <[name := v]> (dict_at (heap st1) l) ∧
    ∀ l', l' ∈ rest → dict_at (heap st2) l' = dict_at (heap st1) l'.
Proof.
  intros Hrhs (Hne & Hnd & Hall) Henv. rewrite Henv in Hnd, Hall.
  apply Forall_cons in Hall as [Hl _]. apply NoDup_cons in Hnd as [Hnotin _].
  eexists. split; [by eapply visit_Assign_spec |]. simpl.
  split; [done |]. split; [by apply dict_at_insert_eq |].
  intros l' Hl'. apply dict_at_insert_ne. intros ->. done.
Qed.

Lemma assign_writes_innermost_only_witness :
  ∃ st2,
    Interpreter.visit_expr (Assign "x" (Literal (VFloat 2)))
      (mkState [{["x" := VFloat 1]}; ∅] [1; 0] [] [])
    = (Ret (VFloat 2), st2) ∧
    dict_at (heap st2) 1 !! "x" = Some (VFloat 2) ∧
    dict_at (heap st2) 0 !! "x" = Some (VFloat 1).
Proof.
  destruct (assign_writes_innermost_only "x" (Literal (VFloat 2))
              (mkState [{["x" := VFloat 1]}; ∅] [1; 0] [] []) (VFloat 2)
              (mkState [{["x" := VFloat 1]}; ∅] [1; 0] [] []) 1 [0])
    as (st2 & Hrun & _ & Hin & Hout).
  - reflexivity.
  - split; [done |]. split.
    + apply NoDup_cons. split; [by intros ?%list_elem_of_singleton | apply NoDup_singleton].
    + repeat constructor; simpl; lia.
  - reflexivity.
  - exists st2. split; [exact Hrun |]. split.
    + rewrite Hin. apply lookup_insert_eq.
    + rewrite Hout by set_solver. reflexivity.
Defined.

(** The whole run of [var x = 1; { x = 2; } print x;]: the assignment in the
    block went to the block's own scope, and the program prints [1]. *)
Example assign_in_block_run :
  Interpreter.interpret 3
    [VarDeclaration "x" (Some (Literal (VFloat 1)));
     Block [ExprStmt (Assign "x" (Literal (VFloat 2)))];
     Print (Variable_ "x")]
    Interpreter.init
  = (Ret (), mkState [{["x" := VFloat 1]}; {["x" := VFloat 2]}] [0] ["1"] []).
Proof. vm_compute. reflexivity. Qed.

(** The program of [test_interpreter] (the counting loop lowered to a block
    holding the initializer and a [while] whose body is the loop body followed
    by the increment, as the spec describes): it prints [0], and then
    [temp + b] finds [temp] still [nil], because [temp = a] wrote the body's
    own scope. *)
Example test_interpreter_run :
  Interpreter.interpret 6
    [VarDeclaration "a" (Some (Literal (VFloat 0)));
     VarDeclaration "temp" None;
     Block
       [VarDeclaration "b" (Some (Literal (VFloat 1)));
        WhileStmt (Binary (Variable_ "a") "<" (Literal (VFloat 10000)))
          (Block
             [Block [Print (Variable_ "a");
                     ExprStmt (Assign "temp" (Variable_ "a"));
                     ExprStmt (Assign "a" (Variable_ "b"))];
              ExprStmt (Assign "b" (Binary (Variable_ "temp") "+" (Variable_ "b")))])]]
    Interpreter.init
  = (Ret (),
     mkState
       [{["a" := VFloat 0; "temp" := VNone]}; {["b" := VFloat 1]}; ∅;
        {["temp" := VFloat 0; "a" := VFloat 1]}]
       [0] ["0"]
       [RuntimeFailure (Binary (Variable_ "temp") "+" (Variable_ "b"))
          "operands must be numbers"]).
Proof. vm_compute. reflexivity. Qed.

(** ** Division *)

(** C4: a division of two numbers whose divisor is zero raises nothing.  The
    [ZeroDivisionError] of the host is caught inside [visit_Binary], one
    diagnostic line goes to standard output, and the expression evaluates to
    [nil], with which the enclosing statement carries on. *)
Theorem division_by_zero_prints_and_yields_nil left right st x st1 y st2 :
  Interpreter.visit_expr left st = (Ret (VFloat x), st1) →
  Interpreter.visit_expr right st1 = (Ret (VFloat y), st2) →
  (y =? 0)%float = true →
  Interpreter.visit_expr (Binary left "/" right) st
  = (Ret VNone, add_stdout zero_division_line st2) ∧
  Interpreter.visit_stmt 1 (Print (Binary left "/" right)) st
  = (Ret (), add_stdout "nil" (add_stdout zero_division_line st2)).
Proof.
  intros Hl Hr Hz.
  assert (Interpreter.visit_expr (Binary left "/" right) st
          = (Ret VNone, add_stdout zero_division_line st2)) as Hdiv.
  { simpl. unfold Interpreter.visit_Binary, bind. rewrite Hl, Hr. simpl.
    unfold try_except, bind, py_truediv. simpl. rewrite Hz. done. }
  split; [exact Hdiv |].
  unfold Interpreter.visit_stmt, Interpreter.visit_Print, bind.
  rewrite Hdiv. done.
Qed.

Lemma division_by_zero_prints_and_yields_nil_witness :
  Interpreter.visit_stmt 1
    (Print (Binary (Literal (VFloat 1)) "/" (Literal (VFloat 0)))) Interpreter.init
  = (Ret (), mkState [∅] [0] [zero_division_line; "nil"] []).
Proof.
  apply (division_by_zero_prints_and_yields_nil
           (Literal (VFloat 1)) (Literal (VFloat 0)) Interpreter.init
           1%float Interpreter.init 0%float Interpreter.init); reflexivity.
Defined.

(** C4, as the claim has it, fails: [1 / 0] raises no failure, it writes a
    line to standard output and yields [nil]; [print 1 / 0;] then prints
    [nil], and nothing reaches the error sink. *)
Lemma division_by_zero_is_not_raised :
  Interpreter.visit_expr
    (Binary (Literal (VFloat 1)) "/" (Literal (VFloat 0))) Interpreter.init
  = (Ret VNone, mkState [∅] [0] [zero_division_line] []) ∧
  Interpreter.interpret 1
    [Print (Binary (Literal (VFloat 1)) "/" (Literal (VFloat 0)))] Interpreter.init
  = (Ret (), mkState [∅] [0] [zero_division_line; "nil"] []).
Proof. split; vm_compute; reflexivity. Qed.

(** ** Equality *)

Lemma is_equal_spec_equal a b :
  a = VNone ∨ same_variant a b = true →
  Interpreter.is_equal a b = VBool (spec_equal a b).
Proof.
  intros [-> | Hsame].
  - by destruct b.
  - by destruct a, b.
Qed.

Lemma visit_Binary_eq left right st a st1 b st2 :
  Interpreter.visit_expr left st = (Ret a, st1) →
  Interpreter.visit_expr right st1 = (Ret b, st2) →
  Interpreter.visit_expr (Binary left "==" right) st
  = (Ret (Interpreter.is_equal a b), st2) ∧
  Interpreter.visit_expr (Binary left "!=" right) st
  = (Ret (VBool (negb (py_bool (Interpreter.is_equal a b)))), st2).
Proof.
  intros Hl Hr. simpl. unfold Interpreter.visit_Binary, bind.
  rewrite Hl, Hr. done.
Qed.

(** C5: [==] never fails and has no effect of its own.  When the left
    operand is [nil] or both operands are of one variant, it is the spec's
    equality rule and [!=] is its negation.  A number on the left compared
    with a boolean on the right is compared as a number with 1 or 0.
    Whenever [==] yields a boolean, [!=] yields the opposite one. *)
Theorem equality_operators left right st a st1 b st2 :
  Interpreter.visit_expr left st = (Ret a, st1) →
  Interpreter.visit_expr right st1 = (Ret b, st2) →
  (∃ v, Interpreter.visit_expr (Binary left "==" right) st = (Ret v, st2)) ∧
  (a = VNone ∨ same_variant a b = true →
     Interpreter.visit_expr (Binary left "==" right) st
     = (Ret (VBool (spec_equal a b)), st2) ∧
     Interpreter.visit_expr (Binary left "!=" right) st
     = (Ret (VBool (negb (spec_equal a b))), st2)) ∧
  (∀ x c, a = VFloat x → b = VBool c →
     Interpreter.visit_expr (Binary left "==" right) st
     = (Ret (VBool (x =? (if c then 1 else 0))%float), st2)) ∧
  (∀ t, Interpreter.visit_expr (Binary left "==" right) st = (Ret (VBool t), st2) →
     Interpreter.visit_expr (Binary left "!=" right) st = (Ret (VBool (negb t)), st2)).
Proof.
  intros Hl Hr. destruct (visit_Binary_eq _ _ _ _ _ _ _ Hl Hr) as [Heq Hne].
  split; [eauto |]. split; [| split].
  - intros Hside. rewrite Heq, Hne, (is_equal_spec_equal a b Hside). done.
  - intros x c -> ->. by rewrite Heq.
  - intros t Ht. rewrite Heq in Ht. rewrite Hne.
    by replace (Interpreter.is_equal a b) with (VBool t) by congruence.
Qed.

Lemma equality_operators_witness :
  Interpreter.visit_expr
    (Binary (Literal (VStr "ab")) "==" (Literal (VStr "ab"))) Interpreter.init
  = (Ret (VBool true), Interpreter.init) ∧
  Interpreter.visit_expr
    (Binary (Literal VNone) "!=" (Literal (VFloat 0))) Interpreter.init
  = (Ret (VBool true), Interpreter.init).
Proof.
  split.
  - apply (equality_operators (Literal (VStr "ab")) (Literal (VStr "ab"))
             Interpreter.init (VStr "ab") Interpreter.init (VStr "ab"));
      [reflexivity | reflexivity | by right].
  - apply (equality_operators (Literal VNone) (Literal (VFloat 0))
             Interpreter.init VNone Interpreter.init (VFloat 0));
      [reflexivity | reflexivity | by left].
Defined.

(** C5, as the claim has it, fails: a number and a boolean are of different
    variants, yet [1 == true] is true. *)
Lemma number_equals_boolean :
  same_variant (VFloat 1) (VBool true) = false ∧
  Interpreter.visit_expr
    (Binary (Literal (VFloat 1)) "==" (Literal (VBool true))) Interpreter.init
  = (Ret (VBool true), Interpreter.init).
Proof. split; vm_compute; reflexivity. Qed.

(** For the other pairs of different variants [a.__eq__(b)] hands back the
    host's [NotImplemented], and [is_equal] passes it on as the value of
    [==]; it counts as truthy. *)
Example equality_leaks_NotImplemented :
  Interpreter.is_equal (VStr "a") (VFloat 1) = VNotImplemented ∧
  Interpreter.is_equal (VBool true) (VFloat 1) = VNotImplemented ∧
  Interpreter.is_equal (VFloat 1) VNone = VNotImplemented ∧
  Interpreter.is_truthy VNotImplemented = true.
Proof. repeat split. Qed.

(** ** Display text *)

Lemma string_length_app (s t : string) :
  String.length (s +:+ t) = String.length s + String.length t.
Proof. induction s as [| c s IH]; simpl; [done | by rewrite IH]. Qed.

Lemma substring_prefix_app (s t : string) :
  substring 0 (String.length s) (s +:+ t) = s.
Proof.
  induction s as [| c s IH]; simpl; [by destruct t | by rewrite IH].
Qed.

Lemma substring_skip_app (s t : string) (m : nat) :
  substring (String.length s) m (s +:+ t) = substring 0 m t.
Proof. induction s as [| c s IH]; simpl; done. Qed.

Lemma substring_whole (s : string) : substring 0 (String.length s) s = s.
Proof. induction s as [| c s IH]; simpl; [done | by rewrite IH]. Qed.

Lemma endswith_app (s suffix : string) : endswith (s +:+ suffix) suffix = true.
Proof.
  unfold endswith. rewrite string_length_app.
  replace (String.length s + String.length suffix - String.length suffix)
    with (String.length s) by lia.
  rewrite substring_skip_app.
  apply andb_true_intro. split; [apply Nat.leb_le; lia |].
  apply String.eqb_eq, substring_whole.
Qed.

(** C9: [stringify] gives [nil] for [nil]; the host's capitalised [True] or
    [False] for a boolean; for a number the host's [str] of the float with a
    final [.0] dropped when there is one, so that [3.0] shows as [3], and
    unchanged otherwise; a string as it is. *)
Theorem stringify_by_variant :
  Interpreter.stringify VNone = "nil" ∧
  (∀ b, Interpreter.stringify (VBool b) = if b then "True" else "False") ∧
  (∀ x text, PyFloat.float_str x = text +:+ ".0" →
     Interpreter.stringify (VFloat x) = text) ∧
  (∀ x, endswith (PyFloat.float_str x) ".0" = false →
     Interpreter.stringify (VFloat x) = PyFloat.float_str x) ∧
  Interpreter.stringify (VFloat 3) = "3" ∧
  (∀ s, Interpreter.stringify (VStr s) = s).
Proof.
  split; [done |]. split; [by intros [] |]. split; [| split; [| split]].
  - intros x text Hx. unfold Interpreter.stringify, py_str.
    rewrite Hx, endswith_app, string_length_app. simpl.
    replace (String.length text + 2 - 2) with (String.length text) by lia.
    apply substring_prefix_app.
  - intros x Hx. unfold Interpreter.stringify, py_str. by rewrite Hx.
  - vm_compute. reflexivity.
  - done.
Qed.

Lemma stringify_by_variant_witness :
  Interpreter.stringify (VFloat 1024) = "1024" ∧
  Interpreter.stringify (VFloat 2.5) = "2.5".
Proof.
  destruct stringify_by_variant as (_ & _ & Hint & Hfrac & _).
  split.
  - apply Hint. vm_compute. reflexivity.
  - rewrite Hfrac; vm_compute; reflexivity.
Defined.

(** C9, as the claim has it, fails: a boolean is displayed with the host's
    capital letter, not in lower case. *)
Lemma stringify_boolean_is_capitalised :
  Interpreter.stringify (VBool true) = "True" ∧
  Interpreter.stringify (VBool false) = "False" ∧
  Interpreter.stringify (VBool true) ≠ "true" ∧
  Interpreter.stringify (VBool false) ≠ "false".
Proof. repeat split; discriminate. Qed.

(** Numbers on display: integral values lose the [.0], others keep their
    digits, and large or tiny magnitudes come in exponent form. *)
Example stringify_numbers :
  map Interpreter.stringify
    [VFloat 3; VFloat 0; VFloat (-7); VFloat 0.1; VFloat 1e16; VFloat 1e-5;
     VFloat 123456789.125; VFloat (0.1 + 0.2)]
  = ["3"; "0"; "-7"; "0.1"; "1e+16"; "1e-05"; "123456789.125";
     "0.30000000000000004"].
Proof. vm_compute. reflexivity. Qed.

(** ** Sample runs *)

(** [var x = 1; { var x = 2; x = 3; print x; } print x;]: the assignment in
    the inner block changes the shadow, the outer [x] is as it was. *)
Example shadow_assign_run :
  Interpreter.interpret 3
    [VarDeclaration "x" (Some (Literal (VFloat 1)));
     Block [VarDeclaration "x" (Some (Literal (VFloat 2)));
            ExprStmt (Assign "x" (Literal (VFloat 3)));
            Print (Variable_ "x")];
     Print (Variable_ "x")]
    Interpreter.init
  = (Ret (), mkState [{["x" := VFloat 1]}; {["x" := VFloat 3]}] [0] ["3"; "1"] []).
Proof. vm_compute. reflexivity. Qed.

(** [var x; x = 5; print x;]: declared first, the assignment succeeds and the
    read returns the assigned value. *)
Example declare_then_assign_run :
  Interpreter.interpret 1
    [VarDeclaration "x" None;
     ExprStmt (Assign "x" (Literal (VFloat 5)));
     Print (Variable_ "x")]
    Interpreter.init
  = (Ret (), mkState [{["x" := VFloat 5]}] [0] ["5"] []).
Proof. vm_compute. reflexivity. Qed.

(** [var a = 1; var b = 2; print a + b;], [print nil or "yes";] and
    [print "foo" + "bar";]. *)
Example end_to_end_runs :
  stdout (Interpreter.interpret 1
            [VarDeclaration "a" (Some (Literal (VFloat 1)));
             VarDeclaration "b" (Some (Literal (VFloat 2)));
             Print (Binary (Variable_ "a") "+" (Variable_ "b"))]
            Interpreter.init).2 = ["3"] ∧
  stdout (Interpreter.interpret 1
            [Print (Logical (Literal VNone) "or" (Literal (VStr "yes")))]
            Interpreter.init).2 = ["yes"] ∧
  stdout (Interpreter.interpret 1
            [Print (Binary (Literal (VStr "foo")) "+" (Literal (VStr "bar")))]
            Interpreter.init).2 = ["foobar"].
Proof. repeat split; vm_compute; reflexivity. Qed.

(** A loop whose counter lives in the scope of the loop itself runs to its
    end: [{ var i = 0; while (i < 3) i = i + 1; print i; }]. *)
Example while_run :
  Interpreter.interpret 6
    [Block [VarDeclaration "i" (Some (Literal (VFloat 0)));
            WhileStmt (Binary (Variable_ "i") "<" (Literal (VFloat 3)))
              (ExprStmt (Assign "i" (Binary (Variable_ "i") "+" (Literal (VFloat 1)))));
            Print (Variable_ "i")]]
    Interpreter.init
  = (Ret (), mkState [∅; {["i" := VFloat 3]}] [0] ["3"] []).
Proof. vm_compute. reflexivity. Qed.

(** ** What a visit can reach *)

Lemma innermost_only_refl st : innermost_only st st.
Proof.
  split; [apply cursor_kept_refl |]. split; [done |].
  exists []. by rewrite app_nil_r.
Qed.

Lemma innermost_only_trans st1 st2 st3 :
  innermost_only st1 st2 → innermost_only st2 st3 → innermost_only st1 st3.
Proof.
  intros (Hc1 & Hh1 & out1 & Ho1) (Hc2 & Hh2 & out2 & Ho2).
  split; [by eapply cursor_kept_trans |]. split.
  - intros l Hl Hhd. destruct Hc1 as (Henv & _ & Hlen).
    rewrite Hh2; [by apply Hh1 | lia | by rewrite Henv].
  - exists (out1 ++ out2). by rewrite Ho2, Ho1, app_assoc.
Qed.

Lemma confined_stateless {A} (m : M A) : (∀ st, (m st).2 = st) → confined m.
Proof. intros Hm st _. rewrite Hm. apply innermost_only_refl. Qed.

Lemma confined_ret {A} (a : A) : confined (ret a).
Proof. by apply confined_stateless. Qed.

Lemma confined_bind {A B} (m : M A) (k : A → M B) :
  confined m → (∀ a, confined (k a)) → confined (bind m k).
Proof.
  intros Hm Hk st. unfold bind.
  specialize (Hm st). destruct (m st) as [[a|e|] st1]; simpl in *.
  - intros Hnt. eapply innermost_only_trans; [by apply Hm | by apply Hk].
  - intros _. by apply Hm.
  - done.
Qed.

Lemma confined_try_except {A} (m : M A) (h : exn → M A) :
  confined m → (∀ e, confined (h e)) → confined (try_except m h).
Proof.
  intros Hm Hh st. unfold try_except.
  specialize (Hm st). destruct (m st) as [[a|e|] st1]; simpl in *.
  - intros _. by apply Hm.
  - intros Hnt. eapply innermost_only_trans; [by apply Hm | by apply Hh].
  - done.
Qed.

Lemma confined_print line : confined (print line).
Proof.
  intros st _. split; [by repeat split |]. split; [done |]. by exists [line].
Qed.

Lemma confined_setitem name v :
  confined (λ st, ChainMap.setitem (env st) name v st).
Proof.
  intros st _. unfold ChainMap.setitem.
  destruct (env st) as [| l0 rest] eqn:Henv; [apply innermost_only_refl |].
  split; [| split].
  - repeat split; simpl; [done.. |]. by rewrite length_insert.
  - simpl. intros l Hl Hhd. rewrite Henv in Hhd. simpl in Hhd.
    apply list_lookup_insert_ne. congruence.
  - exists []. simpl. by rewrite app_nil_r.
Qed.

Lemma confined_for_each {A} (f : A → M unit) (xs : list A) :
  (∀ x, confined (f x)) → confined (for_each f xs).
Proof.
  intros Hf. induction xs as [| x xs IH]; simpl; [apply confined_ret |].
  apply confined_bind; [apply Hf | intros _; exact IH].
Qed.

Ltac confined_leaf :=
  apply confined_stateless; intros ?;
  unfold Interpreter.check_numeric_operand, Interpreter.check_numeric_operands,
    ErrorHandler.error, on_floats, py_truediv, py_add, ret, raise;
  repeat case_match; done.

Ltac confined_step :=
  first
    [ apply confined_bind; [| intros ?]
    | apply confined_try_except; [| intros ?]
    | apply confined_print
    | apply confined_setitem
    | confined_leaf ].

(** An expression visit changes no [dict] but the innermost one. *)
Lemma visit_expr_confined (node : expr) : confined (Interpreter.visit_expr node).
Proof.
  induction node as [v | inner IH | op right IH | left IHl op right IHr
                    | left IHl op right IHr | name | name rhs IH]; simpl.
  - apply confined_ret.
  - exact IH.
  - unfold Interpreter.visit_Unary. confined_step; [exact IH |].
    repeat case_match; repeat confined_step.
  - unfold Interpreter.visit_Binary. confined_step; [exact IHl |].
    confined_step; [exact IHr |].
    repeat first [confined_step | case_match].
  - unfold Interpreter.visit_Logical. confined_step; [exact IHl |].
    repeat case_match; first [exact IHr | apply confined_ret].
  - by apply confined_stateless.
  - unfold Interpreter.visit_Assign. confined_step; [exact IH |].
    repeat confined_step.
Qed.

(** A block whose statements are confined leaves every [dict] that was there
    before it as it was: all its writes go to the child scope or deeper. *)
Lemma visit_Block_untouched visit statements :
  (∀ s, confined (visit s)) →
  ∀ st, (Interpreter.visit_Block visit statements st).1 ≠ Timeout →
    cursor_kept st (Interpreter.visit_Block visit statements st).2 ∧
    (∀ l, l < length (heap st) →
          heap (Interpreter.visit_Block visit statements st).2 !! l = heap st !! l) ∧
    (∃ out, stdout (Interpreter.visit_Block visit statements st).2
            = stdout st ++ out).
Proof.
  intros Hv st.
  unfold Interpreter.visit_Block, bind, ChainMap.new_child,
    Interpreter.execute_Block, try_finally. simpl.
  pose proof (confined_for_each visit statements Hv (enter_block st)) as Hb.
  unfold enter_block in Hb.
  destruct (for_each visit statements _) as [[[]|e|] st1]; simpl in *; try done;
    intros _; destruct Hb as ((Henv & Hrep & Hlen) & Hheap & Hout); try done;
    simpl in *; rewrite length_app in Hlen; simpl in Hlen.
  all: split; [repeat split; simpl; [done.. | lia] |]; split; [| done].
  all: intros l Hl; rewrite Hheap; [by apply lookup_app_l | rewrite length_app; lia |].
  all: intros [= ?]; lia.
Qed.

(** Every statement visit that finishes changed no [dict] but the innermost
    one of the chain it started with. *)
Lemma visit_stmt_confined (fuel : nat) (node : stmt) :
  confined (Interpreter.visit_stmt fuel node).
Proof.
  revert node. induction fuel as [| fuel IH]; intros node; [by intros st |].
  destruct node as [e | e | name initializer | statements
                   | test consequence alternative | test body]; simpl.
  - apply confined_bind; [apply visit_expr_confined | intros _; apply confined_ret].
  - apply confined_bind; [apply visit_expr_confined | intros v; apply confined_print].
  - apply confined_bind.
    + destruct initializer; [apply visit_expr_confined | apply confined_ret].
    + intros v. apply confined_setitem.
  - intros st Hnt.
    destruct (visit_Block_untouched _ statements IH st Hnt) as (Hc & Hh & Ho).
    split; [done |]. split; [| done]. intros l Hl _. by apply Hh.
  - apply confined_bind; [apply visit_expr_confined |].
    intros t. destruct (Interpreter.is_truthy t); [apply IH |].
    destruct alternative; [apply IH | apply confined_ret].
  - apply confined_bind; [apply visit_expr_confined |].
    intros t. destruct (Interpreter.is_truthy t); [| apply confined_ret].
    apply confined_bind; [apply IH | intros _; apply IH].
Qed.

(** ** Reading through the chain *)

Lemma get_agree h h' maps key :
  (∀ l, l ∈ maps → dict_at h' l !! key = dict_at h l !! key) →
  ChainMap.get h' maps key = ChainMap.get h maps key.
Proof.
  intros Hag. rewrite !get_getitem. f_equal.
  induction maps as [| l rest IH]; simpl; [done |].
  rewrite Hag by set_solver. destruct (dict_at h l !! key); [done |].
  apply IH. intros l' Hl'. apply Hag. set_solver.
Qed.

Lemma lookup_dict_at (h h' : list (gmap string value)) l :
  h' !! l = h !! l → dict_at h' l = dict_at h l.
Proof. unfold dict_at. by intros ->. Qed.

Lemma get_setitem_same (h : list (gmap string value)) l rest key v :
  l < length h →
  ChainMap.get (<[l := <[key := v]> (dict_at h l)]> h) (l :: rest) key = v.
Proof.
  intros Hl. rewrite get_getitem. simpl.
  by rewrite dict_at_insert_eq, lookup_insert_eq.
Qed.

Lemma get_setitem_other (h : list (gmap string value)) l maps key other v :
  other ≠ key →
  ChainMap.get (<[l := <[key := v]> (dict_at h l)]> h) maps other
  = ChainMap.get h maps other.
Proof.
  intros Hne. apply get_agree. intros l' _.
  destruct (decide (l = l')) as [<- | Hll'].
  - destruct (decide (l < length h)) as [Hl | Hl].
    + rewrite dict_at_insert_eq by done. by rewrite lookup_insert_ne.
    + by rewrite list_insert_ge by lia.
  - by rewrite dict_at_insert_ne.
Qed.

(** ** Further properties of scopes *)

(** X1: whatever an expression or a finished statement does, the [dict]s of
    the enclosing scopes (every [dict] but the innermost of the current
    chain) are as they were; nested blocks and loops included. *)
Theorem enclosing_scopes_untouched :
  (∀ node st l,
     l < length (heap st) → head (env st) ≠ Some l →
     heap (Interpreter.visit_expr node st).2 !! l = heap st !! l) ∧
  (∀ fuel node st l,
     (Interpreter.visit_stmt fuel node st).1 ≠ Timeout →
     l < length (heap st) → head (env st) ≠ Some l →
     heap (Interpreter.visit_stmt fuel node st).2 !! l = heap st !! l).
Proof.
  split.
  - intros node st l Hl Hhd.
    destruct (visit_expr_confined node st) as (_ & Hh & _); [| by apply Hh].
    apply visit_expr_keeps_cursor.
  - intros fuel node st l Hnt Hl Hhd.
    destruct (visit_stmt_confined fuel node st Hnt) as (_ & Hh & _). by apply Hh.
Qed.

Lemma enclosing_scopes_untouched_witness :
  heap (Interpreter.visit_stmt 4
          (WhileStmt (Binary (Variable_ "x") "<" (Literal (VFloat 2)))
             (ExprStmt (Assign "x" (Binary (Variable_ "x") "+" (Literal (VFloat 1))))))
          (mkState [{["x" := VFloat 0]}; ∅] [1; 0] [] [])).2 !! 0
  = Some {["x" := VFloat 0]}.
Proof.
  apply (proj2 enclosing_scopes_untouched 4
           (WhileStmt (Binary (Variable_ "x") "<" (Literal (VFloat 2)))
              (ExprStmt (Assign "x" (Binary (Variable_ "x") "+" (Literal (VFloat 1))))))
           (mkState [{["x" := VFloat 0]}; ∅] [1; 0] [] []) 0).
  - vm_compute. discriminate.
  - simpl. lia.
  - simpl. discriminate.
Defined.

(** X2: a block that finishes, normally or with an exception, leaves every
    [dict] that existed before it untouched, the one of the scope it was
    entered from included; so after the block every name reads what it read
    before. *)
Theorem block_changes_no_binding fuel statements st r st' :
  Interpreter.visit_stmt (S fuel) (Block statements) st = (r, st') →
  r ≠ Timeout →
  well_formed st →
  (∀ l, l < length (heap st) → heap st' !! l = heap st !! l) ∧
  (∀ name, reads st' name = reads st name).
Proof.
  intros Hrun Hnt (_ & _ & Hall).
  pose proof (visit_Block_untouched (Interpreter.visit_stmt fuel) statements
                (visit_stmt_confined fuel) st) as Hb.
  simpl in Hrun. rewrite Hrun in Hb. simpl in Hb.
  destruct (Hb Hnt) as ((Henv & _) & Hh & _).
  split; [exact Hh |].
  intros name. unfold reads. rewrite Henv. apply get_agree.
  intros l Hl. rewrite Forall_forall in Hall.
  by rewrite (lookup_dict_at (heap st) (heap st') l) by (apply Hh, Hall, Hl).
Qed.

Lemma block_changes_no_binding_witness :
  reads (Interpreter.visit_stmt 3
           (Block [ExprStmt (Assign "x" (Literal (VFloat 2)));
                   VarDeclaration "y" (Some (Literal (VFloat 3)))])
           (mkState [{["x" := VFloat 1]}] [0] [] [])).2 "x" = VFloat 1 ∧
  reads (Interpreter.visit_stmt 3
           (Block [ExprStmt (Assign "x" (Literal (VFloat 2)));
                   VarDeclaration "y" (Some (Literal (VFloat 3)))])
           (mkState [{["x" := VFloat 1]}] [0] [] [])).2 "y" = VNone.
Proof.
  destruct (Interpreter.visit_stmt 3
              (Block [ExprStmt (Assign "x" (Literal (VFloat 2)));
                      VarDeclaration "y" (Some (Literal (VFloat 3)))])
              (mkState [{["x" := VFloat 1]}] [0] [] [])) as [r st'] eqn:Hrun.
  assert (r = Ret ()) as -> by (vm_compute in Hrun; congruence).
  destruct (block_changes_no_binding _ _ _ _ _ Hrun) as [_ Hreads].
  - discriminate.
  - split; [done |]. split; [apply NoDup_singleton |].
    apply Forall_singleton. simpl. lia.
  - simpl. by rewrite !Hreads.
Defined.



(** X4: a declaration that gets its initial value [v] (the initializer's, or
    [nil] without one) binds the name in the innermost scope: the name then
    reads [v], every other name reads what it read when the initializer was
    done, and the declaration itself prints nothing. *)
Theorem var_declaration_defines fuel name initializer st v st1 :
  match initializer with
  | Some e => Interpreter.visit_expr e st
  | None => (Ret VNone, st)
  end = (Ret v, st1) →
  well_formed st →
  ∃ st2,
    Interpreter.visit_stmt (S fuel) (VarDeclaration name initializer) st
    = (Ret (), st2) ∧
    reads st2 name = v ∧
    (∀ other, other ≠ name → reads st2 other = reads st1 other) ∧
    env st2 = env st ∧ stdout st2 = stdout st1.
Proof.
  intros Hinit Hwf.
  assert (well_formed st1 ∧ env st1 = env st) as [(Hne & _ & Hall) Henv].
  { destruct initializer as [e |].
    - pose proof (visit_expr_well_formed e st Hwf) as Hwf1.
      destruct (visit_expr_keeps_cursor e st) as (_ & Hc & _).
      rewrite Hinit in Hwf1, Hc. done.
    - by simplify_eq. }
  destruct (env st1) as [| l rest] eqn:Hchain; [done |].
  apply Forall_cons in Hall as [Hl _].
  eexists. split.
  { simpl. unfold Interpreter.visit_VarDeclaration, bind, ChainMap.setitem.
    destruct initializer as [e |]; [rewrite Hinit | unfold ret; simplify_eq];
      rewrite Hchain; reflexivity. }
  unfold reads. simpl. rewrite Hchain.
  split; [by apply get_setitem_same |].
  split; [by intros other Hother; apply get_setitem_other |].
  done.
Qed.

Lemma var_declaration_defines_witness :
  ∃ st2,
    Interpreter.visit_stmt 1 (VarDeclaration "x" None)
      (mkState [{["y" := VFloat 1]}] [0] [] []) = (Ret (), st2) ∧
    reads st2 "x" = VNone ∧ reads st2 "y" = VFloat 1.
Proof.
  destruct (var_declaration_defines 0 "x" None
              (mkState [{["y" := VFloat 1]}] [0] [] []) VNone
              (mkState [{["y" := VFloat 1]}] [0] [] []))
    as (st2 & Hrun & Hx & Hother & _).
  - reflexivity.
  - split; [done |]. split; [apply NoDup_singleton |].
    apply Forall_singleton. simpl. lia.
  - exists st2. split; [exact Hrun |]. split; [exact Hx |].
    by rewrite Hother.
Defined.

(** X5: an assignment whose right-hand side evaluates to [v] returns [v],
    and afterwards the name reads [v] while every other name reads what it
    read when the right-hand side was done; chained assignments work for
    that reason. *)
Theorem assign_then_read name rhs st v st1 :
  Interpreter.visit_expr rhs st = (Ret v, st1) →
  well_formed st →
  ∃ st2,
    Interpreter.visit_expr (Assign name rhs) st = (Ret v, st2) ∧
    reads st2 name = v ∧
    (∀ other, other ≠ name → reads st2 other = reads st1 other) ∧
    stdout st2 = stdout st1.
Proof.
  intros Hrhs Hwf.
  pose proof (visit_expr_well_formed rhs st Hwf) as Hwf1. rewrite Hrhs in Hwf1.
  destruct Hwf1 as (Hne & _ & Hall). simpl in Hne, Hall.
  destruct (env st1) as [| l rest] eqn:Hchain; [done |].
  apply Forall_cons in Hall as [Hl _].
  eexists. split; [by eapply visit_Assign_spec |].
  unfold reads. simpl. rewrite Hchain.
  split; [by apply get_setitem_same |].
  split; [by intros other Hother; apply get_setitem_other | done].
Qed.

Lemma assign_then_read_witness :
  ∃ st2,
    Interpreter.visit_expr (Assign "a" (Assign "b" (Literal (VFloat 1))))
      Interpreter.init = (Ret (VFloat 1), st2) ∧
    reads st2 "a" = VFloat 1 ∧ reads st2 "b" = VFloat 1.
Proof.
  destruct (assign_then_read "a" (Assign "b" (Literal (VFloat 1)))
              Interpreter.init (VFloat 1)
              (mkState [{["b" := VFloat 1]}] [0] [] []))
    as (st2 & Hrun & Ha & Hother & _).
  - reflexivity.
  - apply well_formed_init.
  - exists st2. split; [exact Hrun |]. split; [exact Ha |].
    by rewrite Hother.
Defined.

(** ** Loops and top level *)

(** X6: a [while] loop that returns normally has just evaluated its test to
    a falsy value, and the state it returns is the one that evaluation left
    (with a falsy test at entry, nothing but the test has run). *)
Theorem while_ends_on_falsy_test fuel test body st st' :
  Interpreter.visit_stmt fuel (WhileStmt test body) st = (Ret (), st') →
  ∃ st0 v,
    Interpreter.visit_expr test st0 = (Ret v, st') ∧
    Interpreter.is_truthy v = false.
Proof.
  revert st. induction fuel as [| fuel IH]; intros st; [done |].
  simpl. unfold Interpreter.visit_WhileStmt_step, bind.
  destruct (Interpreter.visit_expr test st) as [[t|e|] st1] eqn:Htest; try done.
  destruct (Interpreter.is_truthy t) eqn:Ht.
  - destruct (Interpreter.visit_stmt fuel body st1) as [[[]|e|] st2]; try done.
    apply IH.
  - intros [= <-]. by exists st, t.
Qed.

Lemma while_ends_on_falsy_test_witness :
  ∃ st0 v,
    Interpreter.visit_expr (Binary (Variable_ "i") "<" (Literal (VFloat 2))) st0
    = (Ret v, mkState [{["i" := VFloat 2]}] [0] [] []) ∧
    Interpreter.is_truthy v = false.
Proof.
  apply (while_ends_on_falsy_test 4
           (Binary (Variable_ "i") "<" (Literal (VFloat 2)))
           (ExprStmt (Assign "i" (Binary (Variable_ "i") "+" (Literal (VFloat 1)))))
           (mkState [{["i" := VFloat 0]}] [0] [] [])).
  vm_compute. reflexivity.
Defined.

(** X7: started with a scope chain, [interpret] lets no exception out: it
    returns (or is still running when the step budget ends).  When it
    returns, the cursor is where it was and the error sink has received
    either nothing or exactly one [RuntimeError]. *)
Theorem interpret_never_raises fuel node st r st' :
  env st ≠ [] →
  Interpreter.interpret fuel node st = (r, st') →
  (∀ e, r ≠ Raise e) ∧
  (r = Ret () →
     env st' = env st ∧
     (reported st' = reported st ∨
      ∃ e, is_RuntimeError e = true ∧ reported st' = reported st ++ [e])).
Proof.
  intros Hne. unfold Interpreter.interpret, try_except.
  pose proof (restores_cursor_for_each (Interpreter.visit_stmt fuel) node
                (visit_stmt_restores_cursor fuel) st) as Hc.
  pose proof (only_RuntimeError_for_each (Interpreter.visit_stmt fuel) node
                (visit_stmt_restores_cursor fuel)
                (visit_stmt_only_RuntimeError fuel) st) as Hr.
  destruct (for_each (Interpreter.visit_stmt fuel) node st) as [[[]|e|] st1];
    simpl in *.
  - intros [= <- <-]. destruct Hc as (Henv & Hrep & _); [done |].
    split; [done |]. intros _. split; [done | by left].
  - rewrite (Hr e st1 Hne eq_refl). intros [= <- <-].
    destruct Hc as (Henv & Hrep & _); [done |].
    split; [done |]. intros _. split; [done |]. right. exists e.
    split; [by apply (Hr e st1) |]. simpl. by rewrite Hrep.
  - intros [= <- <-]. split; [done | done].
Qed.

Lemma interpret_never_raises_witness :
  env (Interpreter.interpret 3
         [Block [ExprStmt (Unary "-" (Literal VNone))]] Interpreter.init).2 = [0].
Proof.
  destruct (Interpreter.interpret 3
              [Block [ExprStmt (Unary "-" (Literal VNone))]] Interpreter.init)
    as [r st'] eqn:Hrun.
  assert (r = Ret ()) as -> by (vm_compute in Hrun; congruence).
  destruct (interpret_never_raises _ _ _ _ _ (ltac:(done) : env Interpreter.init ≠ [])
              Hrun) as [_ Hret].
  destruct (Hret eq_refl) as [Henv _]. exact Henv.
Defined.

(** ** Further properties of operators *)

(** X8: with [nil] as the right operand, [==] yields a truthy value whatever
    the left operand is ([true] for [nil], the host's [NotImplemented]
    otherwise), and [!=] yields [false]: a test [x == nil] always succeeds. *)
Theorem equals_nil_on_the_right left right st a st1 st2 :
  Interpreter.visit_expr left st = (Ret a, st1) →
  Interpreter.visit_expr right st1 = (Ret VNone, st2) →
  ∃ v,
    Interpreter.visit_expr (Binary left "==" right) st = (Ret v, st2) ∧
    Interpreter.is_truthy v = true ∧
    (a ≠ VNone → v = VNotImplemented) ∧
    Interpreter.visit_expr (Binary left "!=" right) st = (Ret (VBool false), st2).
Proof.
  intros Hl Hr. destruct (visit_Binary_eq _ _ _ _ _ _ _ Hl Hr) as [Heq Hne].
  exists (Interpreter.is_equal a VNone). rewrite Hne.
  split; [exact Heq |]. by destruct a.
Qed.

Lemma equals_nil_on_the_right_witness :
  Interpreter.visit_expr (Binary (Literal (VFloat 1)) "!=" (Literal VNone))
    Interpreter.init = (Ret (VBool false), Interpreter.init).
Proof.
  destruct (equals_nil_on_the_right (Literal (VFloat 1)) (Literal VNone)
              Interpreter.init (VFloat 1) Interpreter.init Interpreter.init)
    as (v & _ & _ & _ & Hne); [reflexivity.. | exact Hne].
Defined.

(** X9: [!] never fails: it returns a boolean, [true] exactly when its
    operand is [nil] or [false] (zero and the empty string are truthy), and
    applied twice it returns the operand's truthiness. *)
Theorem not_is_truthiness operand st v st1 :
  Interpreter.visit_expr operand st = (Ret v, st1) →
  Interpreter.visit_expr (Unary "!" operand) st
  = (Ret (VBool (negb (Interpreter.is_truthy v))), st1) ∧
  Interpreter.visit_expr (Unary "!" (Unary "!" operand)) st
  = (Ret (VBool (Interpreter.is_truthy v)), st1) ∧
  (Interpreter.is_truthy v = false ↔ v = VNone ∨ v = VBool false).
Proof.
  intros Hv.
  assert (Interpreter.visit_expr (Unary "!" operand) st
          = (Ret (VBool (negb (Interpreter.is_truthy v))), st1)) as Hnot.
  { simpl. unfold Interpreter.visit_Unary, bind. by rewrite Hv. }
  split; [exact Hnot |]. split.
  - change (Interpreter.visit_expr (Unary "!" (Unary "!" operand)) st)
      with (Interpreter.visit_Unary Interpreter.visit_expr "!" (Unary "!" operand) st).
    unfold Interpreter.visit_Unary at 1. unfold bind. rewrite Hnot. simpl.
    by rewrite negb_involutive.
  - destruct v as [| [] | x | s |]; simpl; split; try done;
      try (by left); try (by right); intros [? | ?]; done.
Qed.

Lemma not_is_truthiness_witness :
  Interpreter.visit_expr (Unary "!" (Unary "!" (Literal (VFloat 0))))
    Interpreter.init = (Ret (VBool true), Interpreter.init).
Proof.
  apply (not_is_truthiness (Literal (VFloat 0)) Interpreter.init (VFloat 0)).
  reflexivity.
Defined.

(** X10: each of the operators [-], [/], [*], [+], [>], [>=], [<], [<=],
    given two operand values that are not both numbers (and, for [+], not
    both strings), ends in the runtime failure "operands must be numbers"
    that carries the node; both operands have been evaluated by then, left
    first. *)
Theorem numeric_operators_reject_other_operands op left right st l st1 r st2 :
  op ∈ numeric_operators →
  Interpreter.visit_expr left st = (Ret l, st1) →
  Interpreter.visit_expr right st1 = (Ret r, st2) →
  is_float l && is_float r = false →
  (op = "+" → is_str l && is_str r = false) →
  Interpreter.visit_expr (Binary left op right) st
  = (Raise (RuntimeFailure (Binary left op right) "operands must be numbers"), st2).
Proof.
  intros Hop Hl Hr Hnum Hstr. unfold numeric_operators in Hop.
  repeat (apply elem_of_cons in Hop as [-> | Hop]);
    [.. | by apply not_elem_of_nil in Hop];
    simpl; unfold Interpreter.visit_Binary, bind; rewrite Hl, Hr; simpl;
    unfold try_except, bind, Interpreter.check_numeric_operands;
    rewrite ?Hnum, ?(Hstr eq_refl); done.
Qed.

Lemma numeric_operators_reject_other_operands_witness :
  Interpreter.visit_expr (Binary (Literal (VFloat 1)) "+" (Literal (VStr "x")))
    Interpreter.init
  = (Raise (RuntimeFailure (Binary (Literal (VFloat 1)) "+" (Literal (VStr "x")))
              "operands must be numbers"),
     Interpreter.init) ∧
  Interpreter.visit_expr (Binary (Literal (VBool true)) "<" (Literal (VFloat 2)))
    Interpreter.init
  = (Raise (RuntimeFailure (Binary (Literal (VBool true)) "<" (Literal (VFloat 2)))
              "operands must be numbers"),
     Interpreter.init).
Proof.
  split.
  - apply (numeric_operators_reject_other_operands "+" _ _ Interpreter.init
             (VFloat 1) Interpreter.init (VStr "x"));
      [unfold numeric_operators; by repeat constructor | done..].
  - apply (numeric_operators_reject_other_operands "<" _ _ Interpreter.init
             (VBool true) Interpreter.init (VFloat 2));
      [unfold numeric_operators; by repeat constructor | done..].
Defined.

(** X11: an operator the evaluator has no case for.  A [Binary] node still
    evaluates both operands and then yields [nil]; a [Logical] node yields
    [nil] without visiting its right operand; a [Unary] node evaluates its
    operand and raises [NotImplementedError], a [RuntimeError]. *)
Theorem unknown_operators op left right st l st1 :
  Interpreter.visit_expr left st = (Ret l, st1) →
  (op ∉ binary_operators →
     ∀ r st2, Interpreter.visit_expr right st1 = (Ret r, st2) →
       Interpreter.visit_expr (Binary left op right) st = (Ret VNone, st2)) ∧
  (op ≠ "or" → op ≠ "and" →
     Interpreter.visit_expr (Logical left op right) st = (Ret VNone, st1)) ∧
  (op ≠ "-" → op ≠ "!" →
     Interpreter.visit_expr (Unary op left) st
     = (Raise (NotImplementedError ("Bad operator " +:+ op)), st1) ∧
     is_RuntimeError (NotImplementedError ("Bad operator " +:+ op)) = true).
Proof.
  intros Hl. split; [| split].
  - intros Hop r st2 Hr. unfold binary_operators, numeric_operators in Hop.
    simpl in Hop. repeat (apply not_elem_of_cons in Hop as [?%String.eqb_neq Hop]).
    simpl. unfold Interpreter.visit_Binary, bind. rewrite Hl, Hr.
    by repeat match goal with H : (_ =? _)%string = false |- _ => rewrite H; clear H end.
  - intros Hor%String.eqb_neq Hand%String.eqb_neq.
    simpl. unfold Interpreter.visit_Logical, bind. by rewrite Hl, Hor, Hand.
  - intros Hneg%String.eqb_neq Hnot%String.eqb_neq.
    split; [| done].
    simpl. unfold Interpreter.visit_Unary, bind. by rewrite Hl, Hneg, Hnot.
Qed.

Lemma unknown_operators_witness :
  Interpreter.visit_expr
    (Binary (Literal (VFloat 1)) "%" (Assign "x" (Literal (VFloat 2))))
    Interpreter.init
  = (Ret VNone, mkState [{["x" := VFloat 2]}] [0] [] []) ∧
  Interpreter.visit_expr
    (Logical (Literal (VFloat 1)) "xor" (Assign "x" (Literal (VFloat 2))))
    Interpreter.init
  = (Ret VNone, Interpreter.init).
Proof.
  destruct (unknown_operators "%" (Literal (VFloat 1))
              (Assign "x" (Literal (VFloat 2))) Interpreter.init (VFloat 1)
              Interpreter.init eq_refl) as (Hbin & _ & _).
  destruct (unknown_operators "xor" (Literal (VFloat 1))
              (Assign "x" (Literal (VFloat 2))) Interpreter.init (VFloat 1)
              Interpreter.init eq_refl) as (_ & Hlog & _).
  split.
  - apply Hbin with (r := VFloat 2); [| reflexivity].
    unfold binary_operators, numeric_operators. simpl.
    repeat (apply not_elem_of_cons; split; [done |]). apply not_elem_of_nil.
  - by apply Hlog.
Defined.

(** ** Numbers *)

Lemma SFcompare_swap f g : SFcompare g f = option_map CompOpp (SFcompare f g).
Proof.
  destruct f as [s | s | | s m e], g as [s' | s' | | s' m' e']; simpl;
    try (by repeat case_match).
  destruct s, s'; simpl; try done.
  - rewrite (Z.compare_antisym e e'). destruct (e ?= e')%Z; simpl; try done.
    by rewrite (Pos.compare_cont_antisym m m' Eq).
  - rewrite (Z.compare_antisym e e'). destruct (e ?= e')%Z; simpl; try done.
    by rewrite (Pos.compare_cont_antisym m m' Eq).
Qed.

Lemma SFcompare_refl f : f ≠ S754_nan → SFcompare f f = Some Eq.
Proof.
  destruct f as [s | s | | s m e]; simpl; intros Hnan; try done.
  - by destruct s.
  - destruct s; rewrite Z.compare_refl;
      change (Pos.compare_cont Eq m m) with (m ?= m)%positive;
      by rewrite Pos.compare_refl.
Qed.

Lemma SFcompare_nan f g :
  SFcompare f g = None ↔ f = S754_nan ∨ g = S754_nan.
Proof.
  destruct f as [s | s | | s m e], g as [s' | s' | | s' m' e']; simpl;
    split; try done; try (by intros [? | ?]); try (by left); try (by right);
    try (by repeat case_match).
Qed.

Lemma is_nan_spec x : is_nan x = true ↔ Prim2SF x = S754_nan.
Proof. unfold is_nan. by destruct (Prim2SF x). Qed.

(** One comparison of the host decides all six operators. *)
Lemma float_comparisons x y :
  (x <=? y)%float = (x <? y)%float || (x =? y)%float ∧
  (y <=? x)%float = (y <? x)%float || (x =? y)%float ∧
  (is_nan x || is_nan y = true →
     (x <? y)%float = false ∧ (x =? y)%float = false ∧ (y <? x)%float = false) ∧
  (is_nan x || is_nan y = false →
     ((x <? y)%float, (x =? y)%float, (y <? x)%float)
     ∈ [(true, false, false); (false, true, false); (false, false, true)]).
Proof.
  rewrite !FloatAxioms.leb_spec, !FloatAxioms.ltb_spec, !FloatAxioms.eqb_spec.
  unfold SFleb, SFltb, SFeqb.
  rewrite (SFcompare_swap (Prim2SF x) (Prim2SF y)).
  pose proof (SFcompare_nan (Prim2SF x) (Prim2SF y)) as Hnan.
  rewrite <- !is_nan_spec in Hnan.
  destruct (SFcompare (Prim2SF x) (Prim2SF y)) as [[| |] |]; simpl;
    (split; [done |]); (split; [done |]); split.
  1, 3, 5: intros Hn; apply orb_true_iff in Hn; discriminate (proj2 Hnan Hn).
  1, 2, 3: intros _; repeat constructor.
  - done.
  - intros Hn. destruct (proj1 Hnan eq_refl) as [H | H]; rewrite H in Hn;
      simpl in Hn; [done | by rewrite orb_true_r in Hn].
Qed.

(** X12: on two numbers the six comparison operators agree with one
    another: [<=] is [<] or [==], [>=] is [>] or [==], [!=] is the negation
    of [==]; when an operand is NaN all of [<], [==], [>] are false, and
    otherwise exactly one of them is true. *)
Theorem comparisons_on_numbers left right st x st1 y st2 :
  Interpreter.visit_expr left st = (Ret (VFloat x), st1) →
  Interpreter.visit_expr right st1 = (Ret (VFloat y), st2) →
  ∃ lt eq gt,
    Interpreter.visit_expr (Binary left "<" right) st = (Ret (VBool lt), st2) ∧
    Interpreter.visit_expr (Binary left "==" right) st = (Ret (VBool eq), st2) ∧
    Interpreter.visit_expr (Binary left ">" right) st = (Ret (VBool gt), st2) ∧
    Interpreter.visit_expr (Binary left "<=" right) st = (Ret (VBool (lt || eq)), st2) ∧
    Interpreter.visit_expr (Binary left ">=" right) st = (Ret (VBool (gt || eq)), st2) ∧
    Interpreter.visit_expr (Binary left "!=" right) st = (Ret (VBool (negb eq)), st2) ∧
    (is_nan x || is_nan y = true → lt = false ∧ eq = false ∧ gt = false) ∧
    (is_nan x || is_nan y = false →
       (lt, eq, gt) ∈ [(true, false, false); (false, true, false); (false, false, true)]).
Proof.
  intros Hl Hr. destruct (float_comparisons x y) as (Hle & Hge & Hnan & Htri).
  exists (x <? y)%float, (x =? y)%float, (y <? x)%float.
  rewrite <- Hle, <- Hge.
  split_and!; [.. | exact Hnan | exact Htri];
    simpl; unfold Interpreter.visit_Binary, bind; rewrite Hl, Hr; done.
Qed.

Lemma comparisons_on_numbers_witness :
  Interpreter.visit_expr (Binary (Literal (VFloat 1)) "<=" (Literal (VFloat 1)))
    Interpreter.init = (Ret (VBool true), Interpreter.init).
Proof.
  destruct (comparisons_on_numbers (Literal (VFloat 1)) (Literal (VFloat 1))
              Interpreter.init 1%float Interpreter.init 1%float Interpreter.init
              eq_refl eq_refl)
    as (lt & eq & gt & Hlt & Heq & _ & Hle & _).
  rewrite Hle. vm_compute in Hlt, Heq. by simplify_eq.
Defined.

Lemma float_opp_involutive x : (- - x)%float = x.
Proof.
  apply Prim2SF_inj. rewrite !FloatAxioms.opp_spec.
  destruct (Prim2SF x) as [s | s | | s m e]; simpl; by rewrite ?negb_involutive.
Qed.

(** X13: unary minus.  On a number it returns the negated number, and
    applied twice it returns the number itself; on anything else it ends in
    the runtime failure "operand must be a number" carrying the node, after
    the operand has been evaluated. *)
Theorem unary_minus operand st v st1 :
  Interpreter.visit_expr operand st = (Ret v, st1) →
  (∀ x, v = VFloat x →
     Interpreter.visit_expr (Unary "-" operand) st = (Ret (VFloat (- x)), st1) ∧
     Interpreter.visit_expr (Unary "-" (Unary "-" operand)) st = (Ret (VFloat x), st1)) ∧
  (is_float v = false →
     Interpreter.visit_expr (Unary "-" operand) st
     = (Raise (RuntimeFailure (Unary "-" operand) "operand must be a number"), st1)).
Proof.
  intros Hv. split.
  - intros x ->.
    assert (Interpreter.visit_expr (Unary "-" operand) st
            = (Ret (VFloat (- x)), st1)) as Hneg.
    { simpl. unfold Interpreter.visit_Unary, bind. by rewrite Hv. }
    split; [exact Hneg |].
    change (Interpreter.visit_expr (Unary "-" (Unary "-" operand)) st)
      with (Interpreter.visit_Unary Interpreter.visit_expr "-" (Unary "-" operand) st).
    unfold Interpreter.visit_Unary at 1. unfold bind. rewrite Hneg. simpl.
    by rewrite float_opp_involutive.
  - intros Hnf. simpl. unfold Interpreter.visit_Unary, bind. rewrite Hv. simpl.
    unfold Interpreter.check_numeric_operand, bind. by rewrite Hnf.
Qed.

Lemma unary_minus_witness :
  Interpreter.visit_expr (Unary "-" (Unary "-" (Literal (VFloat 2.5))))
    Interpreter.init = (Ret (VFloat 2.5), Interpreter.init) ∧
  Interpreter.visit_expr (Unary "-" (Literal (VStr "s"))) Interpreter.init
  = (Raise (RuntimeFailure (Unary "-" (Literal (VStr "s")))
              "operand must be a number"), Interpreter.init).
Proof.
  destruct (unary_minus (Literal (VFloat 2.5)) Interpreter.init (VFloat 2.5)
              Interpreter.init eq_refl) as [Hnum _].
  destruct (unary_minus (Literal (VStr "s")) Interpreter.init (VStr "s")
              Interpreter.init eq_refl) as [_ Hstr].
  split; [by apply (Hnum 2.5%float) | by apply Hstr].
Defined.

(** X14: [==] between two equal values is true, for every kind of value,
    except for a number that is NaN, which is not equal to itself; [!=] is
    the other way round. *)
Theorem equality_is_reflexive left right st a st1 st2 :
  Interpreter.visit_expr left st = (Ret a, st1) →
  Interpreter.visit_expr right st1 = (Ret a, st2) →
  Interpreter.visit_expr (Binary left "==" right) st
  = (Ret (VBool (negb (value_is_nan a))), st2) ∧
  Interpreter.visit_expr (Binary left "!=" right) st
  = (Ret (VBool (value_is_nan a)), st2).
Proof.
  intros Hl Hr. destruct (visit_Binary_eq _ _ _ _ _ _ _ Hl Hr) as [Heq Hne].
  assert (Interpreter.is_equal a a = VBool (negb (value_is_nan a))) as Hrefl.
  { destruct a as [| b | x | s |]; simpl; try done.
    - by destruct b.
    - f_equal. rewrite FloatAxioms.eqb_spec. unfold SFeqb, is_nan.
      destruct (Prim2SF x) eqn:Hx; try done;
        rewrite SFcompare_refl; done.
    - by rewrite String.eqb_refl. }
  rewrite Heq, Hne, Hrefl. simpl. by rewrite negb_involutive.
Qed.

Lemma equality_is_reflexive_witness :
  Interpreter.visit_expr
    (Binary (Literal (VStr "a")) "==" (Literal (VStr "a"))) Interpreter.init
  = (Ret (VBool true), Interpreter.init) ∧
  Interpreter.visit_expr
    (Binary (Literal (VFloat nan)) "==" (Literal (VFloat nan))) Interpreter.init
  = (Ret (VBool false), Interpreter.init).
Proof.
  split.
  - apply (equality_is_reflexive (Literal (VStr "a")) (Literal (VStr "a"))
             Interpreter.init (VStr "a") Interpreter.init Interpreter.init);
      reflexivity.
  - apply (equality_is_reflexive (Literal (VFloat nan)) (Literal (VFloat nan))
             Interpreter.init (VFloat nan) Interpreter.init Interpreter.init);
      reflexivity.
Defined.

Lemma float_add_comm x y : (x + y)%float = (y + x)%float.
Proof.
  apply Prim2SF_inj. rewrite !FloatAxioms.add_spec. unfold SF64add, SFadd.
  destruct (Prim2SF x) as [s | s | | s m e], (Prim2SF y) as [s' | s' | | s' m' e'];
    try done; try (by destruct s, s').
  by rewrite (Z.min_comm e e'), Z.add_comm.
Qed.

Lemma float_mul_comm x y : (x * y)%float = (y * x)%float.
Proof.
  apply Prim2SF_inj. rewrite !FloatAxioms.mul_spec. unfold SF64mul, SFmul.
  destruct (Prim2SF x) as [s | s | | s m e], (Prim2SF y) as [s' | s' | | s' m' e'];
    try done; try (by rewrite xorb_comm).
  by rewrite xorb_comm, Pos.mul_comm, Z.add_comm.
Qed.

(** X15: addition and multiplication of numbers commute: for two operands
    that evaluate to numbers without changing the state (literals, variable
    reads), swapping them gives the same result, the host's sum or product. *)
Theorem sum_and_product_commute a b st x y :
  Interpreter.visit_expr a st = (Ret (VFloat x), st) →
  Interpreter.visit_expr b st = (Ret (VFloat y), st) →
  Interpreter.visit_expr (Binary a "+" b) st = (Ret (VFloat (x + y)), st) ∧
  Interpreter.visit_expr (Binary b "+" a) st = (Ret (VFloat (x + y)), st) ∧
  Interpreter.visit_expr (Binary a "*" b) st = (Ret (VFloat (x * y)), st) ∧
  Interpreter.visit_expr (Binary b "*" a) st = (Ret (VFloat (x * y)), st).
Proof.
  intros Ha Hb. rewrite (float_add_comm x y) at 2. rewrite (float_mul_comm x y) at 2.
  split_and!; simpl; unfold Interpreter.visit_Binary, bind; rewrite ?Ha, ?Hb;
    simpl; rewrite ?Ha, ?Hb; done.
Qed.

Lemma sum_and_product_commute_witness :
  Interpreter.visit_expr (Binary (Literal (VFloat 0.1)) "+" (Variable_ "x"))
    (mkState [{["x" := VFloat 0.2]}] [0] [] [])
  = Interpreter.visit_expr (Binary (Variable_ "x") "+" (Literal (VFloat 0.1)))
      (mkState [{["x" := VFloat 0.2]}] [0] [] []).
Proof.
  destruct (sum_and_product_commute (Literal (VFloat 0.1)) (Variable_ "x")
              (mkState [{["x" := VFloat 0.2]}] [0] [] []) 0.1%float 0.2%float)
    as (H1 & H2 & _); [reflexivity | vm_compute; reflexivity |].
  by rewrite H1, H2.
Defined.

Lemma string_app_assoc (s t u : string) : (s +:+ t) +:+ u = s +:+ (t +:+ u).
Proof.
  induction s as [| c s IH]; [done |].
  change (String c ((s +:+ t) +:+ u) = String c (s +:+ (t +:+ u))).
  by rewrite IH.
Qed.

(** X16: [+] on strings concatenates, without any operand check failing, and
    it is associative: for three operands that evaluate to strings one after
    the other, both groupings give the same string in the same state. *)
Theorem concatenation_is_associative a b c st s st1 t st2 u st3 :
  Interpreter.visit_expr a st = (Ret (VStr s), st1) →
  Interpreter.visit_expr b st1 = (Ret (VStr t), st2) →
  Interpreter.visit_expr c st2 = (Ret (VStr u), st3) →
  Interpreter.visit_expr (Binary a "+" b) st = (Ret (VStr (s +:+ t)), st2) ∧
  Interpreter.visit_expr (Binary (Binary a "+" b) "+" c) st
  = (Ret (VStr (s +:+ t +:+ u)), st3) ∧
  Interpreter.visit_expr (Binary a "+" (Binary b "+" c)) st
  = (Ret (VStr (s +:+ t +:+ u)), st3).
Proof.
  intros Ha Hb Hc.
  assert (∀ l r σ v σ1 w σ2,
            Interpreter.visit_expr l σ = (Ret (VStr v), σ1) →
            Interpreter.visit_expr r σ1 = (Ret (VStr w), σ2) →
            Interpreter.visit_expr (Binary l "+" r) σ = (Ret (VStr (v +:+ w)), σ2))
    as Hcat.
  { intros l r σ v σ1 w σ2 Hl Hr. simpl.
    unfold Interpreter.visit_Binary, bind. by rewrite Hl, Hr. }
  split; [by eapply Hcat |]. split.
  - rewrite <- string_app_assoc. eapply Hcat; [by eapply Hcat | done].
  - eapply Hcat; [done | by eapply Hcat].
Qed.

Lemma concatenation_is_associative_witness :
  Interpreter.visit_expr
    (Binary (Binary (Literal (VStr "foo")) "+" (Literal (VStr "bar"))) "+"
       (Literal (VStr "baz"))) Interpreter.init
  = (Ret (VStr "foobarbaz"), Interpreter.init).
Proof.
  apply (concatenation_is_associative (Literal (VStr "foo")) (Literal (VStr "bar"))
           (Literal (VStr "baz")) Interpreter.init "foo" Interpreter.init
           "bar" Interpreter.init "baz" Interpreter.init); reflexivity.
Defined.

(** ** Failures and output *)

(** X17: a failure in a sub-expression goes through unchanged and nothing
    is done after it: a [Binary] node whose left operand raises does not
    visit the right one; an assignment or a declaration whose right-hand
    side raises writes no binding; a [print] whose expression raises prints
    nothing of its own. *)
Theorem failing_operand_propagates fuel e st err st1 :
  Interpreter.visit_expr e st = (Raise err, st1) →
  (∀ op right, Interpreter.visit_expr (Binary e op right) st = (Raise err, st1)) ∧
  (∀ op, Interpreter.visit_expr (Unary op e) st = (Raise err, st1)) ∧
  (∀ op right, Interpreter.visit_expr (Logical e op right) st = (Raise err, st1)) ∧
  (∀ name, Interpreter.visit_expr (Assign name e) st = (Raise err, st1)) ∧
  (∀ name, Interpreter.visit_stmt (S fuel) (VarDeclaration name (Some e)) st
           = (Raise err, st1)) ∧
  Interpreter.visit_stmt (S fuel) (Print e) st = (Raise err, st1) ∧
  (∀ thn els, Interpreter.visit_stmt (S fuel) (IfStmt e thn els) st = (Raise err, st1)) ∧
  (∀ body, Interpreter.visit_stmt (S fuel) (WhileStmt e body) st = (Raise err, st1)).
Proof.
  intros He. split_and!; intros; simpl;
    unfold Interpreter.visit_Binary, Interpreter.visit_Unary,
      Interpreter.visit_Logical, Interpreter.visit_Assign,
      Interpreter.visit_VarDeclaration, Interpreter.visit_Print,
      Interpreter.visit_IfStmt, Interpreter.visit_WhileStmt_step, bind;
    by rewrite He.
Qed.

Lemma failing_operand_propagates_witness :
  Interpreter.visit_stmt 1
    (VarDeclaration "x" (Some (Unary "-" (Literal (VStr "s"))))) Interpreter.init
  = (Raise (RuntimeFailure (Unary "-" (Literal (VStr "s")))
              "operand must be a number"), Interpreter.init).
Proof.
  apply (failing_operand_propagates 0 (Unary "-" (Literal (VStr "s")))
           Interpreter.init). reflexivity.
Defined.

(** X18: output is only ever added to: whatever a finished statement or a
    finished run of [interpret] does, the lines printed before it are still
    there, in order, at the front of standard output. *)
Theorem output_only_grows :
  (∀ fuel node st,
     (Interpreter.visit_stmt fuel node st).1 ≠ Timeout →
     ∃ out, stdout (Interpreter.visit_stmt fuel node st).2 = stdout st ++ out) ∧
  (∀ fuel node st,
     (Interpreter.interpret fuel node st).1 ≠ Timeout →
     ∃ out, stdout (Interpreter.interpret fuel node st).2 = stdout st ++ out).
Proof.
  split.
  - intros fuel node st Hnt.
    by destruct (visit_stmt_confined fuel node st Hnt) as (_ & _ & Hout).
  - intros fuel node st. unfold Interpreter.interpret, try_except.
    pose proof (confined_for_each (Interpreter.visit_stmt fuel) node
                  (visit_stmt_confined fuel) st) as Hb.
    destruct (for_each (Interpreter.visit_stmt fuel) node st) as [[[]|e|] st1];
      simpl in *; try done.
    + intros _. by destruct Hb as (_ & _ & Hout).
    + intros Hnt. destruct Hb as (_ & _ & Hout); [done |].
      destruct (is_RuntimeError e); simpl; done.
Qed.

Lemma output_only_grows_witness :
  ∃ out,
    stdout (Interpreter.interpret 2
              [Print (Literal (VStr "b")); ExprStmt (Unary "-" (Literal VNone));
               Print (Literal (VStr "c"))]
              (mkState [∅] [0] ["a"] [])).2 = ["a"] ++ out.
Proof.
  apply (proj2 output_only_grows 2 _ (mkState [∅] [0] ["a"] [])).
  vm_compute. discriminate.
Defined.

(** X19: a run that returns without a report can be continued: running
    [p ++ q] is running [p] and then [q] from the state [p] left.  (After a
    report the rest of the sequence is not run, as C8 says.) *)
Theorem interpret_in_sequence fuel p q st st1 :
  Interpreter.interpret fuel p st = (Ret (), st1) →
  reported st1 = reported st →
  Interpreter.interpret fuel (p ++ q) st = Interpreter.interpret fuel q st1.
Proof.
  unfold Interpreter.interpret, try_except. intros Hp Hrep.
  rewrite for_each_app. unfold bind at 1.
  pose proof (restores_cursor_for_each (Interpreter.visit_stmt fuel) p
                (visit_stmt_restores_cursor fuel) st) as Hc.
  destruct (for_each (Interpreter.visit_stmt fuel) p st) as [[[]|e|] st0];
    simpl in *.
  - by simplify_eq.
  - destruct Hc as (_ & Hr & _); [done |].
    destruct (is_RuntimeError e); simpl in Hp; [| done].
    unfold ErrorHandler.runtime_error in Hp. simplify_eq.
    simpl in Hrep. rewrite Hr in Hrep.
    apply (f_equal length) in Hrep. rewrite length_app in Hrep. simpl in Hrep. lia.
  - done.
Qed.

Lemma interpret_in_sequence_witness :
  Interpreter.interpret 1
    ([VarDeclaration "x" (Some (Literal (VFloat 1)))] ++ [Print (Variable_ "x")])
    Interpreter.init
  = Interpreter.interpret 1 [Print (Variable_ "x")]
      (mkState [{["x" := VFloat 1]}] [0] [] []).
Proof.
  apply (interpret_in_sequence 1 [VarDeclaration "x" (Some (Literal (VFloat 1)))]);
    reflexivity.
Defined.

Lemma quiet_stateless {A} (m : M A) :
  (∀ st, (m st).1 ≠ Timeout ∧ (m st).2 = st) → quiet m.
Proof.
  intros Hm st. destruct (Hm st) as [Hnt ->].
  split; [done |]. split; [done |]. exists 0. simpl. by rewrite app_nil_r.
Qed.

Lemma quiet_bind {A B} (m : M A) (k : A → M B) :
  quiet m → (∀ a, quiet (k a)) → quiet (bind m k).
Proof.
  intros Hm Hk st. unfold bind.
  destruct (Hm st) as (Hnt & Hlen & n & Hout).
  destruct (m st) as [[a|e|] st1]; simpl in *; [| by eauto | done].
  destruct (Hk a st1) as (Hnt' & Hlen' & n' & Hout').
  split; [done |]. split; [congruence |]. exists (n + n').
  by rewrite Hout', Hout, replicate_add, app_assoc.
Qed.

Ltac quiet_leaf :=
  apply quiet_stateless; intros ?;
  unfold Interpreter.check_numeric_operand, Interpreter.check_numeric_operands,
    ErrorHandler.error, on_floats, py_add, bind, ret, raise;
  simpl; repeat case_match; simplify_eq/=; done.

(** The division case of [visit_Binary]: at most one diagnostic line. *)
Lemma quiet_division node l r :
  quiet
    (try_except
       (Interpreter.check_numeric_operands node l r ;;; on_floats py_truediv l r)
       (λ error,
          match error with
          | ZeroDivisionError msg => print ("ZeroDivisionError: " +:+ msg) ;;; ret VNone
          | _ => raise error
          end)).
Proof.
  intros st.
  destruct l as [| | x | |], r as [| | y | |];
    try (split; [done |]; split; [done |]; exists 0; simpl; by rewrite app_nil_r).
  unfold try_except, bind, Interpreter.check_numeric_operands, py_truediv. simpl.
  destruct (y =? 0)%float; simpl.
  - split; [done |]. split; [done |]. by exists 1.
  - split; [done |]. split; [done |]. exists 0. simpl. by rewrite app_nil_r.
Qed.

Lemma visit_expr_quiet (node : expr) : quiet (Interpreter.visit_expr node).
Proof.
  induction node as [v | inner IH | op right IH | left IHl op right IHr
                    | left IHl op right IHr | name | name rhs IH]; simpl.
  - by apply quiet_stateless.
  - exact IH.
  - unfold Interpreter.visit_Unary. apply quiet_bind; [exact IH |].
    intros r. repeat case_match; quiet_leaf.
  - unfold Interpreter.visit_Binary. apply quiet_bind; [exact IHl |].
    intros l. apply quiet_bind; [exact IHr |]. intros r.
    repeat (case_match; [first [apply quiet_division | quiet_leaf] |]).
    quiet_leaf.
  - unfold Interpreter.visit_Logical. apply quiet_bind; [exact IHl |].
    intros l. repeat case_match; first [exact IHr | by apply quiet_stateless].
  - by apply quiet_stateless.
  - unfold Interpreter.visit_Assign. apply quiet_bind; [exact IH |].
    intros v. apply quiet_bind; [| intros _; by apply quiet_stateless].
    intros st. unfold ChainMap.setitem.
    destruct (env st); simpl; (split; [done |]); (split; [by rewrite ?length_insert |]);
      exists 0; simpl; by rewrite app_nil_r.
Qed.

(** X20: evaluating an expression allocates no [dict] (only blocks do) and
    prints nothing, except that each division by zero met on the way adds one
    diagnostic line: the output it leaves is the output it found followed by
    some number of copies of that line. *)
Theorem expressions_print_only_diagnostics node st :
  length (heap (Interpreter.visit_expr node st).2) = length (heap st) ∧
  ∃ n, stdout (Interpreter.visit_expr node st).2
       = stdout st ++ replicate n zero_division_line.
Proof. by destruct (visit_expr_quiet node st) as (_ & ? & ?). Qed.

(** A sample: two zero divisions in one expression, two lines. *)
Example two_diagnostics :
  stdout (Interpreter.visit_expr
            (Binary (Binary (Literal (VFloat 1)) "/" (Literal (VFloat 0))) "=="
               (Binary (Literal (VFloat 2)) "/" (Literal (VFloat 0))))
            Interpreter.init).2
  = replicate 2 zero_division_line.
Proof. vm_compute. reflexivity. Qed.
